(** * QUIC/HTTP-3 session validator (tools/quic_validator.py)

    A shallow embedding of the validator: the HTTP/3 client protocol
    handler [HTTP3Client], the two checks of [QuicValidator], the
    orchestrator [run_all_tests], the reporter [print_summary] and [main].

    Conventions of the embedding.
    - Python [bytes] are [string] (a list of 8-bit characters).  A Python
      [str] is represented by its UTF-8 encoding, also a [string]:
      concatenation of texts is concatenation of encodings, and
      [bytes.decode()] is the identity on well-formed UTF-8 and raises
      [UnicodeDecodeError] elsewhere.
    - Clock readings ([time.time()]) are integers, in milliseconds, and
      [int((t - t0) * 1000)] is the exact difference of two readings
      (binary floating point can make the value the code computes one
      less).  The only operations that let time pass are [connect],
      [asyncio.sleep] and the close of a connection on leaving
      [async with connect(...)]; [asyncio.sleep(0.01)] advances the
      clock by 10.
    - The protocol engine (aioquic) is outside the repository.  One
      connection is described by a [Transport] script: what [connect]
      does, which events the engine delivers and when.
    - [print] and [logging] calls only write to the terminal and are left
      out. *)

From Stdlib Require Import ZArith String Ascii List Lia Bool.
From stdpp Require Import base option list gmap strings pretty.

Local Open Scope string_scope.
Local Open Scope Z_scope.

(** ** Data model *)

Abbreviation bytes := string.
Abbreviation str := string.

(** [TestResult] (dataclass). *)
Record TestResult := mkTestResult {
  test_name : str;
  passed : bool;
  message : str;
  duration_ms : Z;
  details : option str
}.

(** The value stored per stream in [HTTP3Client._responses]:
    [{'headers': ..., 'data': ...}]. *)
Record PendingResponse := mkPendingResponse {
  headers : list (bytes * bytes);
  data : bytes
}.

(** The HTTP/3 events [H3Connection.handle_event] yields.  Every class
    other than [HeadersReceived] and [DataReceived] falls through both
    [isinstance] tests. *)
Inductive H3Event :=
| HeadersReceived (stream_id : Z) (hs : list (bytes * bytes))
| DataReceived (stream_id : Z) (payload : bytes)
| OtherH3Event.

(** A transport event as the handler sees it: the name of its class and
    the HTTP/3 events the H3 layer yields when the event is fed to it. *)
Record QuicEvent := mkQuicEvent {
  class_name : str;
  h3_events : list H3Event
}.

(** The fields [HTTP3Client.__init__] sets. *)
Record HTTP3Client := mkHTTP3Client {
  _requests : gmap Z str;
  _responses : gmap Z PendingResponse;
  _handshake_complete : bool
}.

Definition HTTP3Client_init : HTTP3Client :=
  {| _requests := ∅; _responses := ∅; _handshake_complete := false |}.

Definition set_responses (c : HTTP3Client) (m : gmap Z PendingResponse) : HTTP3Client :=
  {| _requests := _requests c; _responses := m;
     _handshake_complete := _handshake_complete c |}.

Definition set_requests (c : HTTP3Client) (m : gmap Z str) : HTTP3Client :=
  {| _requests := m; _responses := _responses c;
     _handshake_complete := _handshake_complete c |}.

Definition set_handshake_complete (c : HTTP3Client) (b : bool) : HTTP3Client :=
  {| _requests := _requests c; _responses := _responses c;
     _handshake_complete := b |}.

(** ** HTTP3Client.quic_event_received *)

(** Body of the [for h3_event in ...] loop. *)
Definition on_h3_event (c : HTTP3Client) (ev : H3Event) : HTTP3Client :=
  match ev with
  | HeadersReceived stream_id hs =>
      set_responses c
        (<[stream_id := {| headers := hs; data := EmptyString |}]> (_responses c))
  | DataReceived stream_id payload =>
      match _responses c !! stream_id with
      | Some r =>
          set_responses c
            (<[stream_id := {| headers := headers r;
                               data := data r ++ payload |}]> (_responses c))
      | None => c
      end
  | OtherH3Event => c
  end.

Definition quic_event_received (c : HTTP3Client) (event : QuicEvent) : HTTP3Client :=
  let c1 :=
    if String.eqb (class_name event) "HandshakeCompleted"
    then set_handshake_complete c true
    else c in
  fold_left on_h3_event (h3_events event) c1.

Definition is_handshake_complete (c : HTTP3Client) : bool :=
  _handshake_complete c.

(** The handler run over a sequence of transport events, oldest first. *)
Definition feed_events (c : HTTP3Client) (events : list QuicEvent) : HTTP3Client :=
  fold_left quic_event_received events c.

(** ** Exceptions and the effect monad *)

(** Where an exception class sits with respect to the two handlers of the
    checks: [except TimeoutError] and [except Exception].  A class
    outside [Exception] ([KeyboardInterrupt], [asyncio.CancelledError],
    ...) is caught by neither. *)
Inductive exn_kind := KBaseException | KException | KTimeoutError.

Record exn := mkExn {
  kind : exn_kind;
  type_name : str;     (* type(e).__name__ *)
  exn_str : str        (* str(e) *)
}.

Definition TimeoutError (msg : str) : exn :=
  {| kind := KTimeoutError; type_name := "TimeoutError"; exn_str := msg |}.

Definition UnicodeDecodeError (msg : str) : exn :=
  {| kind := KException; type_name := "UnicodeDecodeError"; exn_str := msg |}.

(** What one [connect] call meets: how long the call takes, whether it
    raises, the events the engine hands to the protocol object, each
    with its arrival time in milliseconds after the call was made, and
    how long closing the connection takes when [async with] is left. *)
Record Transport := mkTransport {
  connect_ms : Z;
  connect_raises : option exn;
  feed : list (Z * QuicEvent);
  next_available_stream_id : Z;   (* self._quic.get_next_available_stream_id() *)
  send_headers_raises : option exn; (* self._h3.send_headers(...) *)
  close_ms : Z
}.

(** The world outside the validator: the clock, the scripts of the
    successive [connect] calls, and the text the interpreter puts in the
    [UnicodeDecodeError] of an ill-formed byte string. *)
Record World := mkWorld {
  now : Z;
  dials : nat;
  network : nat -> Transport;
  decode_error_text : bytes -> str
}.

Definition set_now (w : World) (t : Z) : World :=
  {| now := t; dials := dials w; network := network w;
     decode_error_text := decode_error_text w |}.

Inductive result (A : Type) :=
| Return (a : A)
| Raise (e : exn)
| OutOfFuel.
Arguments Return {A} a.
Arguments Raise {A} e.
Arguments OutOfFuel {A}.

Definition M (A : Type) : Type := World -> result A * World.

Definition ret {A} (a : A) : M A := fun w => (Return a, w).

Definition raise {A} (e : exn) : M A := fun w => (Raise e, w).

Definition out_of_fuel {A} : M A := fun w => (OutOfFuel, w).

Definition bind {A B} (m : M A) (k : A -> M B) : M B :=
  fun w =>
    match m w with
    | (Return a, w') => k a w'
    | (Raise e, w') => (Raise e, w')
    | (OutOfFuel, w') => (OutOfFuel, w')
    end.

Notation "'let!' x ':=' m 'in' k" := (bind m (fun x => k))
  (at level 10, x name, m at level 100, k at level 200).

(** [try: body except ...]: the handler says which exceptions it catches. *)
Definition try_except {A} (body : M A) (handler : exn -> option (M A)) : M A :=
  fun w =>
    match body w with
    | (Raise e, w') =>
        match handler e with
        | Some h => h w'
        | None => (Raise e, w')
        end
    | other => other
    end.

Definition time_time : M Z := fun w => (Return (now w), w).

(** ** bytes.decode() *)

Definition byte_in (lo hi : N) (a : ascii) : bool :=
  let n := N_of_ascii a in ((lo <=? n) && (n <=? hi))%N.

Definition continuation (a : ascii) : bool := byte_in 128 191 a.

Definition three_bytes (a b c : ascii) : bool :=
  ((byte_in 224 224 a && byte_in 160 191 b)
   || (byte_in 225 236 a && continuation b)
   || (byte_in 237 237 a && byte_in 128 159 b)
   || (byte_in 238 239 a && continuation b))
  && continuation c.

Definition four_bytes (a b c d : ascii) : bool :=
  ((byte_in 240 240 a && byte_in 144 191 b)
   || (byte_in 241 243 a && continuation b)
   || (byte_in 244 244 a && byte_in 128 143 b))
  && continuation c && continuation d.

(** Well-formed UTF-8 (shortest form, no surrogates, at most U+10FFFF). *)
Fixpoint utf8_valid (s : bytes) : bool :=
  match s with
  | EmptyString => true
  | String a s1 =>
      if byte_in 0 127 a then utf8_valid s1
      else
        match s1 with
        | EmptyString => false
        | String b s2 =>
            if byte_in 194 223 a then continuation b && utf8_valid s2
            else
              match s2 with
              | EmptyString => false
              | String c s3 =>
                  if byte_in 224 239 a then three_bytes a b c && utf8_valid s3
                  else
                    match s3 with
                    | EmptyString => false
                    | String d s4 => four_bytes a b c d && utf8_valid s4
                    end
              end
        end
  end.

Definition decode (b : bytes) : M str :=
  fun w =>
    if utf8_valid b then (Return b, w)
    else (Raise (UnicodeDecodeError (decode_error_text w b)), w).

(** ** Connections *)

(** A live connection: the protocol object, the instant [connect] was
    called, and the events of the script not yet delivered. *)
Record Connection := mkConnection {
  client : HTTP3Client;
  opened_at : Z;
  inbox : list (Z * QuicEvent);
  script : Transport
}.

Definition due (elapsed : Z) (e : Z * QuicEvent) : bool := fst e <=? elapsed.

(** The event loop runs while the check is suspended: every event that
    has arrived by instant [t] is handed to [quic_event_received], in the
    order of the script. *)
Definition deliver (t : Z) (cn : Connection) : Connection :=
  let elapsed := t - opened_at cn in
  {| client := feed_events (client cn)
                 (map snd (List.filter (due elapsed) (inbox cn)));
     opened_at := opened_at cn;
     inbox := List.filter (fun e => negb (due elapsed e)) (inbox cn);
     script := script cn |}.

(** [connect(host, port, configuration=..., create_protocol=HTTP3Client)]:
    the next script of the network is consumed. *)
Definition connect : M Connection :=
  fun w =>
    let tr := network w (dials w) in
    let w1 := {| now := now w + connect_ms tr; dials := S (dials w);
                 network := network w;
                 decode_error_text := decode_error_text w |} in
    match connect_raises tr with
    | Some e => (Raise e, w1)
    | None =>
        (Return (deliver (now w1)
                   {| client := HTTP3Client_init; opened_at := now w;
                      inbox := feed tr; script := tr |}), w1)
    end.

(** [await asyncio.sleep(ms / 1000)] with a connection open. *)
Definition asyncio_sleep_on (ms : Z) (cn : Connection) : M Connection :=
  fun w =>
    let w1 := set_now w (now w + ms) in
    (Return (deliver (now w1) cn), w1).

(** [await asyncio.sleep(ms / 1000)] with no connection open. *)
Definition asyncio_sleep (ms : Z) : M unit :=
  fun w => (Return tt, set_now w (now w + ms)).

(** Leaving [async with connect(...) as client:]: the connection is
    closed and the close awaited, however the block ends (it returns, or
    an exception leaves it). *)
Definition closed (cn : Connection) (w : World) : World :=
  set_now w (now w + close_ms (script cn)).

Definition aexit {A} (cn : Connection) (block : M A) : M A :=
  fun w =>
    let (r, w1) := block w in
    (r, closed cn w1).

(** [async with connect(...) as client: block].  When [connect] raises,
    the block is not entered and there is nothing to close. *)
Definition async_with_connect {A} (block : Connection -> M A) : M A :=
  let! cn := connect in
  aexit cn (block cn).

(** The polling loop both waits are written as:
    [while not ready: if time.time() - start > timeout: raise
     TimeoutError(msg); await asyncio.sleep(0.01)].
    [timeout_ms] is the bound in milliseconds. *)
Fixpoint poll (fuel : nat) (ready : HTTP3Client -> bool) (msg : str)
    (timeout_ms start : Z) (cn : Connection) : M Connection :=
  match fuel with
  | O => out_of_fuel
  | S fuel' =>
      if ready (client cn) then ret cn
      else
        let! t := time_time in
        if timeout_ms <? t - start then raise (TimeoutError msg)
        else
          let! cn' := asyncio_sleep_on 10 cn in
          poll fuel' ready msg timeout_ms start cn'
  end.

(** Iterations that always suffice for a loop entered with
    [time.time() = start]. *)
Definition poll_fuel (timeout_ms : Z) : nat := (Z.to_nat (timeout_ms / 10) + 2)%nat.

(** ** HTTP3Client.send_request *)

Definition has_response (stream_id : Z) (c : HTTP3Client) : bool :=
  bool_decide (is_Some (_responses c !! stream_id)).

Definition send_request (url : str) (cn : Connection) : M (PendingResponse * Connection) :=
  let stream_id := next_available_stream_id (script cn) in
  let! _ := (match send_headers_raises (script cn) with
             | Some e => raise e
             | None => ret tt
             end) in
  let cn1 :=
    {| client := set_requests (client cn) (<[stream_id := url]> (_requests (client cn)));
       opened_at := opened_at cn; inbox := inbox cn; script := script cn |} in
  let timeout_ms := 5000 in
  let! start := time_time in
  let! cn2 := poll (poll_fuel timeout_ms) (has_response stream_id) "Request timeout"
                timeout_ms start cn1 in
  match _responses (client cn2) !! stream_id with
  | Some r => ret (r, cn2)
  | None => raise {| kind := KException; type_name := "KeyError";
                     exn_str := pretty stream_id |}
  end.

(** ** QuicValidator *)

Record QuicValidator := mkQuicValidator {
  host : str;
  port : Z;
  timeout : Z;                 (* seconds *)
  results : list TestResult
}.

Definition QuicValidator_init (h : str) (p : Z) (t : Z) : QuicValidator :=
  {| host := h; port := p; timeout := t; results := [] |}.

(** [str(client._quic.configuration.alpn_protocols)] for the offer list
    [["h3"]] both checks configure. *)
Definition alpn_protocols_repr : str := "['h3']".

(** *** test_quic_handshake *)

(** The block under [async with] in [test_quic_handshake]. *)
Definition handshake_block (v : QuicValidator) (start_time : Z) (cn : Connection)
    : M TestResult :=
  let timeout_s := timeout v in
  let! start := time_time in
  let! _ := poll (poll_fuel (1000 * timeout_s)) is_handshake_complete
              "Handshake timeout" (1000 * timeout_s) start cn in
  let! t := time_time in
  ret {| test_name := "QUIC Handshake";
         passed := true;
         message := "Handshake completed successfully";
         duration_ms := t - start_time;
         details := Some ("Protocol: " ++ alpn_protocols_repr) |}.

(** The body of the [try] in [test_quic_handshake]. *)
Definition handshake_body (v : QuicValidator) (start_time : Z) : M TestResult :=
  async_with_connect (handshake_block v start_time).

Definition handshake_handler (start_time : Z) (e : exn) : option (M TestResult) :=
  match kind e with
  | KTimeoutError =>
      Some (let! t := time_time in
            ret {| test_name := "QUIC Handshake";
                   passed := false;
                   message := "Handshake timeout";
                   duration_ms := t - start_time;
                   details := Some "Server did not complete handshake within timeout period" |})
  | KException =>
      Some (let! t := time_time in
            ret {| test_name := "QUIC Handshake";
                   passed := false;
                   message := "Handshake failed: " ++ type_name e;
                   duration_ms := t - start_time;
                   details := Some (exn_str e) |})
  | KBaseException => None
  end.

Definition test_quic_handshake (v : QuicValidator) : M TestResult :=
  let! start_time := time_time in
  try_except (handshake_body v start_time) (handshake_handler start_time).

(** *** test_http3_request *)

(** [for name, value in response['headers']: if name == b':status':
    status = value.decode(); break]. *)
Fixpoint find_status (hs : list (bytes * bytes)) : M (option str) :=
  match hs with
  | [] => ret None
  | (name, value) :: rest =>
      if String.eqb name ":status"
      then (let! s := decode value in ret (Some s))
      else find_status rest
  end.

(** Truth value of [status] in [... if status else ...]. *)
Definition truthy (status : option str) : bool :=
  match status with
  | Some s => negb (String.eqb s EmptyString)
  | None => false
  end.

Definition http3_message (status : option str) : str :=
  if truthy status
  then "Received HTTP response (status: " ++ default EmptyString status ++ ")"
  else "No status in response".

(** The block under [async with] in [test_http3_request]. *)
Definition http3_block (v : QuicValidator) (start_time : Z) (cn : Connection)
    : M TestResult :=
  let! rc := send_request (host v ++ ":" ++ pretty (port v)) cn in
  let response := fst rc in
  let! t := time_time in
  let! status := find_status (headers response) in
  ret {| test_name := "HTTP/3 Request";
         passed := bool_decide (status <> None);
         message := http3_message status;
         duration_ms := t - start_time;
         details := Some ("Response size: "
                          ++ pretty (N.of_nat (String.length (data response)))
                          ++ " bytes") |}.

(** The body of the [try] in [test_http3_request]. *)
Definition http3_body (v : QuicValidator) (start_time : Z) : M TestResult :=
  async_with_connect (http3_block v start_time).

Definition http3_handler (start_time : Z) (e : exn) : option (M TestResult) :=
  match kind e with
  | KTimeoutError | KException =>
      Some (let! t := time_time in
            ret {| test_name := "HTTP/3 Request";
                   passed := false;
                   message := "Request failed: " ++ type_name e;
                   duration_ms := t - start_time;
                   details := Some (exn_str e) |})
  | KBaseException => None
  end.

Definition test_http3_request (v : QuicValidator) : M TestResult :=
  let! start_time := time_time in
  try_except (http3_body v start_time) (http3_handler start_time).

(** *** run_all_tests *)

Definition tests : list (str * (QuicValidator -> M TestResult)) :=
  [ ("Test 1: QUIC Handshake", test_quic_handshake);
    ("Test 2: HTTP/3 Request", test_http3_request) ].

(** The [for test_name, test_func in tests] loop. *)
Fixpoint run_tests (ts : list (str * (QuicValidator -> M TestResult)))
    (v : QuicValidator) : M QuicValidator :=
  match ts with
  | [] => ret v
  | (_, test_func) :: rest =>
      let! r := test_func v in
      let v' := {| host := host v; port := port v; timeout := timeout v;
                   results := results v ++ [r] |} in
      let! _ := asyncio_sleep 500 in
      run_tests rest v'
  end.

(** Returns [self.results] together with the validator as it is left. *)
Definition run_all_tests (v : QuicValidator) : M (list TestResult * QuicValidator) :=
  let! v' := run_tests tests v in
  ret (results v', v').

(** *** print_summary *)

Definition count_passed (rs : list TestResult) : nat :=
  length (List.filter passed rs).

Definition count_failed (rs : list TestResult) : nat :=
  length (List.filter (fun r => negb (passed r)) rs).

(** The value [print_summary] returns: [failed == 0]. *)
Definition print_summary (v : QuicValidator) : bool :=
  Nat.eqb (count_failed (results v)) 0.

(** ** main *)

Record Args := mkArgs {
  arg_host : str;
  arg_port : Z;
  arg_verbose : bool;
  arg_timeout : Z
}.

(** The defaults of the argument parser. *)
Definition default_args : Args :=
  {| arg_host := "127.0.0.1"; arg_port := 8443;
     arg_verbose := false; arg_timeout := 5 |}.

(** [main] ends in [sys.exit(code)] on every path; the model returns the
    code.  [AIOQUIC_AVAILABLE] is the module-level flag the guarded import
    sets.  (When the import fails the script in fact stops before [main]
    is called, at the class statement that names [QuicConnectionProtocol];
    the interpreter then exits with status 1 too, and no check has run.) *)
Definition main (AIOQUIC_AVAILABLE : bool) (args : Args) : M Z :=
  if negb AIOQUIC_AVAILABLE then ret 1
  else
    let validator := QuicValidator_init (arg_host args) (arg_port args) (arg_timeout args) in
    let! rv := run_all_tests validator in
    let success := print_summary (snd rv) in
    ret (if success then 0 else 1).

(** ** Vocabulary of the statements *)

(** The HTTP/3 events of a sequence of transport events, in arrival
    order. *)
Definition h3_stream (events : list QuicEvent) : list H3Event :=
  flat_map h3_events events.

(** Whether an HTTP/3 event is a header block for stream [sid]. *)
Definition is_headers_for (sid : Z) (ev : H3Event) : bool :=
  match ev with
  | HeadersReceived s _ => s =? sid
  | _ => false
  end.

(** The body fragments received for stream [sid], concatenated in
    arrival order. *)
Fixpoint body_of (sid : Z) (evs : list H3Event) : bytes :=
  match evs with
  | [] => EmptyString
  | DataReceived s d :: rest =>
      if s =? sid then d ++ body_of sid rest else body_of sid rest
  | _ :: rest => body_of sid rest
  end.

(** C2 as the invariant is worded: whatever events follow, a known
    stream keeps its headers and its body only grows. *)
Definition response_kept (c : HTTP3Client) (events : list QuicEvent) (sid : Z) : Prop :=
  forall r, _responses c !! sid = Some r ->
    exists r', _responses (feed_events c events) !! sid = Some r'
               /\ headers r' = headers r
               /\ exists fragment, data r' = data r ++ fragment.

(** The transport events that make a wait succeed: the one that sets the
    handshake flag, and those that create a response on stream [sid]. *)
Definition completes_handshake (e : QuicEvent) : bool :=
  String.eqb (class_name e) "HandshakeCompleted".

Definition carries_headers_for (sid : Z) (e : QuicEvent) : bool :=
  existsb (is_headers_for sid) (h3_events e).

(** A wait on connection [cn] is satisfied by instant [x] (milliseconds
    after the connection was opened): the client is ready already, or an
    event that makes it ready arrives no later than [x]. *)
Definition satisfied_by (ready : HTTP3Client -> bool) (trig : QuicEvent -> bool)
    (cn : Connection) (x : Z) : bool :=
  ready (client cn) || existsb (fun e => due x e && trig (snd e)) (inbox cn).

(** No event of the inbox has arrived by instant [t] of the clock. *)
Definition inbox_fresh (cn : Connection) (t : Z) : Prop :=
  Forall (fun e => due (t - opened_at cn) e = false) (inbox cn).

(** How long after its start a polling loop with bound [timeout_ms]
    takes its last look: the first multiple of 10 ms past the bound. *)
Definition last_poll (timeout_ms : Z) : Z :=
  if timeout_ms <? 0 then 0 else 10 * (timeout_ms / 10) + 10.

(** [sub in s]. *)
Fixpoint contains (sub s : str) : bool :=
  String.prefix sub s
  || match s with
     | EmptyString => false
     | String _ rest => contains sub rest
     end.

(** C6 as it is worded: the result is a failure whose message names the
    exception's type and whose details are the exception's text. *)
Definition reports_exception (e : exn) (r : TestResult) : Prop :=
  passed r = false
  /\ contains (type_name e) (message r) = true
  /\ details r = Some (exn_str e).

(** The script signals handshake completion no later than [x]
    milliseconds after [connect] was called. *)
Definition signalled_by (tr : Transport) (x : Z) : bool :=
  existsb (fun e => due x e && completes_handshake (snd e)) (feed tr).

(** C5 as it is worded: completion strictly before the handshake timeout
    of [timeout_s] seconds, counted from the start of the wait (the
    instant [connect] returns). *)
Definition completes_strictly_before (tr : Transport) (timeout_s : Z) : bool :=
  signalled_by tr (connect_ms tr + 1000 * timeout_s - 1).

(** The world as [connect] leaves it. *)
Definition dialled (w : World) : World :=
  {| now := now w + connect_ms (network w (dials w)); dials := S (dials w);
     network := network w; decode_error_text := decode_error_text w |}.

(** Two runs of a computation that differ by a shift of the clock:
    worlds [d] ms apart, connections opened [d] ms apart, and outcomes
    related accordingly. *)
Definition sim (d : Z) (w w' : World) : Prop :=
  now w' = now w + d /\ decode_error_text w' = decode_error_text w.

Definition sim_conn (d : Z) (cn cn' : Connection) : Prop :=
  client cn' = client cn /\ inbox cn' = inbox cn /\ script cn' = script cn
  /\ opened_at cn' = opened_at cn + d.

Definition sim_out {A} (RA : A -> A -> Prop) (d : Z) (x y : result A * World) : Prop :=
  sim d (snd x) (snd y)
  /\ match fst x, fst y with
     | Return a, Return b => RA a b
     | Raise e, Raise e' => e = e'
     | OutOfFuel, OutOfFuel => True
     | _, _ => False
     end.

(** A computation has ended without exhausting the fuel of the model,
    and the only exceptions it lets through are those outside
    [Exception]. *)
Definition settled {A} (x : result A * World) : Prop :=
  match fst x with
  | Return _ => True
  | Raise e => kind e = KBaseException
  | OutOfFuel => False
  end.

Definition finished {A} (x : result A * World) : Prop := fst x <> OutOfFuel.

(** *** Scripts used as concrete inputs *)

Definition handshake_completed : QuicEvent :=
  {| class_name := "HandshakeCompleted"; h3_events := [] |}.

Definition headers_event (sid : Z) (hs : list (bytes * bytes)) : QuicEvent :=
  {| class_name := "StreamDataReceived"; h3_events := [HeadersReceived sid hs] |}.

Definition data_event (sid : Z) (d : bytes) : QuicEvent :=
  {| class_name := "StreamDataReceived"; h3_events := [DataReceived sid d] |}.

Definition ok_headers : list (bytes * bytes) := [(":status", "200")].

Definition plain_transport (events : list (Z * QuicEvent)) : Transport :=
  {| connect_ms := 0; connect_raises := None; feed := events;
     next_available_stream_id := 0; send_headers_raises := None;
     close_ms := 0 |}.

(** Handshake completion signalled 1 ms after the connection attempt. *)
Definition prompt_handshake : Transport := plain_transport [(1, handshake_completed)].

(** A peer that never answers. *)
Definition silent : Transport := plain_transport [].

(** Handshake completion signalled 5 ms after a 5 s timeout has elapsed. *)
Definition late_handshake : Transport := plain_transport [(5005, handshake_completed)].

Definition connection_refused : exn :=
  {| kind := KException; type_name := "ConnectionRefusedError";
     exn_str := "[Errno 111] Connection refused" |}.

Definition refusing : Transport :=
  {| connect_ms := 2; connect_raises := Some connection_refused; feed := [];
     next_available_stream_id := 0; send_headers_raises := None;
     close_ms := 0 |}.

(** A run that starts at clock 0; the first [connect] meets [tr1], every
    later one [tr2]. *)
Definition world_of (tr1 tr2 : Transport) : World :=
  {| now := 0; dials := 0;
     network := fun n => match n with O => tr1 | S _ => tr2 end;
     decode_error_text := fun _ => "invalid utf-8 data" |}.

Definition default_validator : QuicValidator := QuicValidator_init "127.0.0.1" 8443 5.

(** The validator after [self.results.append(r)]. *)
Definition append_result (v : QuicValidator) (r : TestResult) : QuicValidator :=
  {| host := host v; port := port v; timeout := timeout v;
     results := results v ++ [r] |}.

(** The validator with another configured timeout. *)
Definition with_timeout (v : QuicValidator) (t : Z) : QuicValidator :=
  {| host := host v; port := port v; timeout := t; results := results v |}.

(** A peer that completes the handshake at once and answers the request
    on stream 0 with header block [hs], [t] ms after the connection
    attempt. *)
Definition reply_at (t : Z) (hs : list (bytes * bytes)) : Transport :=
  plain_transport [(1, handshake_completed); (t, headers_event 0 hs)].

Definition is_status (h : bytes * bytes) : bool := String.eqb (fst h) ":status".

(** A client that has received a header block and two bytes of body on
    stream 0. *)
Definition client_with_body : HTTP3Client :=
  feed_events HTTP3Client_init [headers_event 0 ok_headers; data_event 0 "ab"].

(** ** Vocabulary of the further properties *)

(** The stream an HTTP/3 event belongs to, for the two classes the
    handler looks at. *)
Definition stream_of (ev : H3Event) : option Z :=
  match ev with
  | HeadersReceived s _ => Some s
  | DataReceived s _ => Some s
  | OtherH3Event => None
  end.


(** World [w'] is world [w] after [k] further connection attempts: the
    network scripts and the interpreter are the same. *)
Definition same_net (k : nat) (w w' : World) : Prop :=
  dials w' = (k + dials w)%nat
  /\ network w' = network w
  /\ decode_error_text w' = decode_error_text w.

(** Two scripted events that arrive at the same instant and yield the
    same HTTP/3 events; their classes may differ. *)
Definition same_h3_event (e e' : Z * QuicEvent) : Prop :=
  fst e' = fst e /\ h3_events (snd e') = h3_events (snd e).

(** Two transports that differ at most in the classes of their events. *)
Definition same_h3_transport (tr tr' : Transport) : Prop :=
  connect_ms tr' = connect_ms tr
  /\ connect_raises tr' = connect_raises tr
  /\ Forall2 same_h3_event (feed tr) (feed tr')
  /\ next_available_stream_id tr' = next_available_stream_id tr
  /\ send_headers_raises tr' = send_headers_raises tr
  /\ close_ms tr' = close_ms tr.

(** Two connections over such transports, seen through the tables the
    request check reads. *)
Definition same_h3_conn (cn cn' : Connection) : Prop :=
  _responses (client cn') = _responses (client cn)
  /\ _requests (client cn') = _requests (client cn)
  /\ opened_at cn' = opened_at cn
  /\ Forall2 same_h3_event (inbox cn) (inbox cn')
  /\ next_available_stream_id (script cn') = next_available_stream_id (script cn)
  /\ send_headers_raises (script cn') = send_headers_raises (script cn)
  /\ close_ms (script cn') = close_ms (script cn).

(** Computation [m] changes nothing of the world but the clock, once
    [f] has been applied to it. *)
Definition lands {A} (f : World -> World) (m : M A) : Prop :=
  forall w, exists t, snd (m w) = set_now (f w) t.





(** * Properties *)

(** ** The event handler *)

Section Handler.

Implicit Types (c : HTTP3Client) (ev : H3Event) (e : QuicEvent).

Lemma on_h3_event_flag c ev :
  _handshake_complete (on_h3_event c ev) = _handshake_complete c.
Proof.
  destruct ev as [sid hs|sid d|]; simpl; try reflexivity.
  destruct (_responses c !! sid); reflexivity.
Qed.

Lemma on_h3_events_flag evs c :
  _handshake_complete (fold_left on_h3_event evs c) = _handshake_complete c.
Proof.
  revert c. induction evs as [|ev evs IH]; intros c; simpl; [reflexivity|].
  rewrite IH. apply on_h3_event_flag.
Qed.

Lemma on_h3_event_requests c ev :
  _requests (on_h3_event c ev) = _requests c.
Proof.
  destruct ev as [sid hs|sid d|]; simpl; try reflexivity.
  destruct (_responses c !! sid); reflexivity.
Qed.

(** The flag a transport event leaves: set by [HandshakeCompleted], kept
    by every other event. *)
Lemma quic_event_received_flag c e :
  is_handshake_complete (quic_event_received c e)
  = String.eqb (class_name e) "HandshakeCompleted" || is_handshake_complete c.
Proof.
  unfold quic_event_received, is_handshake_complete.
  rewrite on_h3_events_flag.
  destruct (String.eqb (class_name e) "HandshakeCompleted"); reflexivity.
Qed.

Lemma feed_events_flag_true events c :
  is_handshake_complete c = true ->
  is_handshake_complete (feed_events c events) = true.
Proof.
  revert c. induction events as [|e events IH]; intros c Hc; simpl; [exact Hc|].
  apply IH. rewrite quic_event_received_flag, Hc. apply orb_true_r.
Qed.

Lemma feed_events_app c events1 events2 :
  feed_events c (events1 ++ events2) = feed_events (feed_events c events1) events2.
Proof. unfold feed_events. apply fold_left_app. Qed.

(** The flag after a sequence of events: it was set before, or one of
    the events is a [HandshakeCompleted]. *)
Lemma feed_events_flag events c :
  is_handshake_complete (feed_events c events)
  = is_handshake_complete c
    || existsb (fun e => String.eqb (class_name e) "HandshakeCompleted") events.
Proof.
  revert c. induction events as [|e events IH]; intros c; simpl.
  - symmetry. apply orb_false_r.
  - fold (feed_events (quic_event_received c e) events).
    rewrite IH, quic_event_received_flag.
    destruct (String.eqb (class_name e) "HandshakeCompleted"),
      (is_handshake_complete c); reflexivity.
Qed.

(** The response map does not depend on the handshake flag, so a
    transport event acts on it through its HTTP/3 events alone. *)
Lemma on_h3_event_set_flag c b ev :
  on_h3_event (set_handshake_complete c b) ev
  = set_handshake_complete (on_h3_event c ev) b.
Proof.
  destruct ev as [sid hs|sid d|]; simpl; try reflexivity.
  destruct (_responses c !! sid); reflexivity.
Qed.

Lemma on_h3_events_set_flag evs c b :
  fold_left on_h3_event evs (set_handshake_complete c b)
  = set_handshake_complete (fold_left on_h3_event evs c) b.
Proof.
  revert c. induction evs as [|ev evs IH]; intros c; simpl; [reflexivity|].
  rewrite on_h3_event_set_flag. apply IH.
Qed.

Lemma quic_event_received_responses c e :
  _responses (quic_event_received c e)
  = _responses (fold_left on_h3_event (h3_events e) c).
Proof.
  unfold quic_event_received.
  destruct (String.eqb (class_name e) "HandshakeCompleted"); [|reflexivity].
  rewrite on_h3_events_set_flag. reflexivity.
Qed.

End Handler.

Section Correlator.

Implicit Types (c : HTTP3Client) (ev : H3Event) (e : QuicEvent).

Lemma string_app_assoc (a b d : string) : (a ++ b) ++ d = a ++ (b ++ d).
Proof.
  induction a as [|x a IH]; [reflexivity|].
  change (String x ((a ++ b) ++ d) = String x (a ++ (b ++ d))).
  now rewrite IH.
Qed.

Lemma string_app_nil_r (a : string) : a ++ EmptyString = a.
Proof.
  induction a as [|x a IH]; [reflexivity|].
  change (String x (a ++ EmptyString) = String x a). now rewrite IH.
Qed.

Lemma feed_events_responses events c :
  _responses (feed_events c events)
  = _responses (fold_left on_h3_event (h3_stream events) c).
Proof.
  revert c. induction events as [|e events IH]; intros c; simpl; [reflexivity|].
  fold (feed_events (quic_event_received c e) events).
  rewrite IH, fold_left_app.
  generalize (h3_stream events) as evs. intros evs.
  assert (Hgen : forall c1 c2, _responses c1 = _responses c2 ->
            _responses (fold_left on_h3_event evs c1)
            = _responses (fold_left on_h3_event evs c2)).
  { induction evs as [|ev evs IHevs]; intros c1 c2 H12; simpl; [exact H12|].
    apply IHevs. destruct ev as [sid hs|sid d|]; simpl; try exact H12.
    - now rewrite H12.
    - rewrite H12. destruct (_responses c2 !! sid); [reflexivity|exact H12]. }
  apply Hgen, quic_event_received_responses.
Qed.

(** A known stream stays known. *)
Lemma on_h3_event_known c ev sid :
  is_Some (_responses c !! sid) -> is_Some (_responses (on_h3_event c ev) !! sid).
Proof.
  intros Hk. destruct ev as [s hs|s d|]; simpl; [| |exact Hk].
  - destruct (decide (s = sid)) as [->|Hne].
    + rewrite lookup_insert_eq. eauto.
    + now rewrite lookup_insert_ne.
  - destruct (_responses c !! s) eqn:Hs; [|exact Hk]. simpl.
    destruct (decide (s = sid)) as [->|Hne].
    + rewrite lookup_insert_eq. eauto.
    + now rewrite lookup_insert_ne.
Qed.

Lemma on_h3_events_known evs c sid :
  is_Some (_responses c !! sid) ->
  is_Some (_responses (fold_left on_h3_event evs c) !! sid).
Proof.
  revert c. induction evs as [|ev evs IH]; intros c Hk; simpl; [exact Hk|].
  apply IH, on_h3_event_known, Hk.
Qed.

(** Without a second header block for the stream, the entry keeps its
    headers and its body grows by the fragments, in arrival order. *)
Lemma on_h3_events_append evs c sid r :
  _responses c !! sid = Some r ->
  existsb (is_headers_for sid) evs = false ->
  _responses (fold_left on_h3_event evs c) !! sid
  = Some {| headers := headers r; data := data r ++ body_of sid evs |}.
Proof.
  revert c r. induction evs as [|ev evs IH]; intros c r Hr Hno; simpl.
  - rewrite string_app_nil_r. destruct r; exact Hr.
  - simpl in Hno. apply orb_false_elim in Hno as [Hev Hevs].
    destruct ev as [s hs|s d|]; simpl in *.
    + apply Z.eqb_neq in Hev. apply IH; [|exact Hevs]. simpl.
      now rewrite lookup_insert_ne.
    + destruct (Z.eqb_spec s sid) as [->|Hne].
      * rewrite Hr. erewrite IH; [|simpl; apply lookup_insert_eq|exact Hevs].
        simpl. now rewrite string_app_assoc.
      * destruct (_responses c !! s) eqn:Hs.
        -- apply IH; [|exact Hevs]. simpl. now rewrite lookup_insert_ne.
        -- now apply IH.
    + now apply IH.
Qed.

End Correlator.

(** ** The effect monad *)

Lemma bind_assoc {A B C} (m : M A) (f : A -> M B) (g : B -> M C) (w : World) :
  bind (bind m f) g w = bind m (fun a => bind (f a) g) w.
Proof. unfold bind. destruct (m w) as [[a|e|] w1]; reflexivity. Qed.

Lemma bind_return {A B} (m : M A) (k : A -> M B) (w w1 : World) (a : A) :
  m w = (Return a, w1) -> bind m k w = k a w1.
Proof. intros H. unfold bind. now rewrite H. Qed.

Lemma bind_raise {A B} (m : M A) (k : A -> M B) (w w1 : World) (e : exn) :
  m w = (Raise e, w1) -> bind m k w = (Raise e, w1).
Proof. intros H. unfold bind. now rewrite H. Qed.

(** One step of a monadic computation whose first action is known. *)
Ltac step H := unfold bind at 1; rewrite H; cbv beta iota zeta.

Lemma set_now_set_now (w : World) (a b : Z) : set_now (set_now w a) b = set_now w b.
Proof. reflexivity. Qed.

Lemma set_now_now (w : World) : set_now w (now w) = w.
Proof. destruct w; reflexivity. Qed.

(** ** Delivery of events *)

Section Delivery.

Variables (ready : HTTP3Client -> bool) (trig : QuicEvent -> bool).
Hypothesis ready_feed : forall c events,
  ready (feed_events c events) = ready c || existsb trig events.

Lemma existsb_map_filter {A B} (f : B -> bool) (g : A -> B) (p : A -> bool) (l : list A) :
  existsb f (map g (List.filter p l)) = existsb (fun a => p a && f (g a)) l.
Proof.
  induction l as [|a l IH]; simpl; [reflexivity|].
  destruct (p a); simpl; now rewrite IH.
Qed.

Lemma existsb_filter {A} (f p : A -> bool) (l : list A) :
  existsb f (List.filter p l) = existsb (fun a => p a && f a) l.
Proof.
  induction l as [|a l IH]; simpl; [reflexivity|].
  destruct (p a); simpl; now rewrite IH.
Qed.

Lemma existsb_orb {A} (f g : A -> bool) (l : list A) :
  existsb f l || existsb g l = existsb (fun a => f a || g a) l.
Proof.
  induction l as [|a l IH]; simpl; [reflexivity|].
  rewrite <- IH. destruct (f a), (g a), (existsb f l); reflexivity.
Qed.

Lemma existsb_pointwise {A} (f g : A -> bool) (l : list A) :
  (forall a, f a = g a) -> existsb f l = existsb g l.
Proof. intros H. induction l as [|a l IH]; simpl; [reflexivity|]. now rewrite H, IH. Qed.

Lemma deliver_ready t cn :
  ready (client (deliver t cn)) = satisfied_by ready trig cn (t - opened_at cn).
Proof.
  unfold deliver, satisfied_by. simpl.
  now rewrite ready_feed, existsb_map_filter.
Qed.

(** Delivering what has arrived does not change whether the wait is
    satisfied by a later instant. *)
Lemma deliver_satisfied_by t cn x :
  t - opened_at cn <= x ->
  satisfied_by ready trig (deliver t cn) x = satisfied_by ready trig cn x.
Proof.
  intros Hle. unfold satisfied_by at 1. rewrite deliver_ready.
  unfold satisfied_by. simpl. rewrite existsb_filter, <- orb_assoc, existsb_orb.
  f_equal. apply existsb_pointwise. intros [a e]. unfold due. simpl.
  destruct (Z.leb_spec a (t - opened_at cn)), (Z.leb_spec a x), (trig e);
    simpl; try reflexivity; lia.
Qed.

Lemma deliver_fresh t cn : inbox_fresh (deliver t cn) t.
Proof.
  unfold inbox_fresh, deliver. simpl.
  apply List.Forall_forall. intros e He. apply List.filter_In in He as [_ He].
  now apply negb_true_iff.
Qed.

Lemma fresh_satisfied_by cn t :
  inbox_fresh cn t ->
  satisfied_by ready trig cn (t - opened_at cn) = ready (client cn).
Proof.
  unfold inbox_fresh, satisfied_by. intros Hf.
  replace (existsb _ (inbox cn)) with false; [apply orb_false_r|].
  symmetry. induction Hf as [|e l He _ IH]; simpl; [reflexivity|].
  now rewrite He, IH.
Qed.

(** Outcome of the polling loop entered [n] sleeps before its last look:
    it returns when the wait is satisfied by the instant of the last look
    and raises [TimeoutError] at that instant otherwise.  With more than
    [n] units of fuel it never runs out. *)
Lemma poll_outcome (msg : str) (timeout_ms start : Z) (n : nat) :
  forall (fuel : nat) (cn : Connection) (w : World),
    (n < fuel)%nat ->
    (n = 0%nat -> timeout_ms < now w - start) ->
    (n <> 0%nat ->
       now w - start + 10 * (Z.of_nat n - 1) <= timeout_ms
       < now w - start + 10 * Z.of_nat n) ->
    inbox_fresh cn (now w) ->
    if satisfied_by ready trig cn (now w - opened_at cn + 10 * Z.of_nat n)
    then exists cn' t,
        poll fuel ready msg timeout_ms start cn w = (Return cn', set_now w t)
        /\ ready (client cn') = true
        /\ now w <= t <= now w + 10 * Z.of_nat n
    else poll fuel ready msg timeout_ms start cn w
         = (Raise (TimeoutError msg), set_now w (now w + 10 * Z.of_nat n)).
Proof.
  induction n as [|n IH]; intros fuel cn w Hfuel H0 HS Hfresh;
    (destruct fuel as [|fuel]; [lia|]); simpl poll.
  - replace (now w - opened_at cn + 10 * Z.of_nat 0) with (now w - opened_at cn) by lia.
    rewrite (fresh_satisfied_by _ _ Hfresh).
    destruct (ready (client cn)) eqn:Hr.
    + exists cn, (now w). unfold ret. rewrite set_now_now. repeat split; [exact Hr|lia..].
    + unfold bind, time_time, raise.
      destruct (Z.ltb_spec timeout_ms (now w - start)) as [_|Hge]; [|specialize (H0 eq_refl); lia].
      replace (now w + 10 * Z.of_nat 0) with (now w) by lia. now rewrite set_now_now.
  - specialize (HS ltac:(lia)).
    destruct (ready (client cn)) eqn:Hr.
    + unfold satisfied_by. rewrite Hr. simpl.
      exists cn, (now w). unfold ret. rewrite set_now_now. repeat split; [exact Hr|lia..].
    + unfold bind, time_time, asyncio_sleep_on.
      destruct (Z.ltb_spec timeout_ms (now w - start)) as [Hlt|_]; [lia|].
      set (w1 := set_now w (now w + 10)).
      specialize (IH fuel (deliver (now w1) cn) w1 ltac:(lia)).
      assert (Hnow : now w1 = now w + 10) by reflexivity.
      rewrite Hnow in IH.
      replace (now w + 10 - opened_at (deliver (now w + 10) cn) + 10 * Z.of_nat n)
        with (now w - opened_at cn + 10 * Z.of_nat (S n)) in IH
        by (simpl opened_at; lia).
      rewrite deliver_satisfied_by in IH by lia.
      specialize (IH ltac:(lia) ltac:(lia) (deliver_fresh _ _)).
      destruct (satisfied_by ready trig cn (now w - opened_at cn + 10 * Z.of_nat (S n))).
      * destruct IH as (cn' & t & Hrun & Hready & Ht).
        exists cn', t. split; [exact Hrun|]. split; [exact Hready|lia].
      * etransitivity; [exact IH|]. unfold w1. rewrite set_now_set_now.
        do 2 f_equal. lia.
Qed.

End Delivery.

(** ** The two waits *)

Section Waits.

Lemma handshake_ready_feed c events :
  is_handshake_complete (feed_events c events)
  = is_handshake_complete c || existsb completes_handshake events.
Proof. apply feed_events_flag. Qed.

Lemma has_response_on_h3_event sid c ev :
  has_response sid (on_h3_event c ev) = has_response sid c || is_headers_for sid ev.
Proof.
  unfold has_response.
  destruct ev as [s hs|s d|]; simpl.
  - destruct (Z.eqb_spec s sid) as [->|Hne].
    + rewrite lookup_insert_eq, orb_true_r. apply bool_decide_eq_true. eauto.
    + rewrite lookup_insert_ne by exact Hne. now rewrite orb_false_r.
  - rewrite orb_false_r. destruct (_responses c !! s) eqn:Hs; [|reflexivity]. simpl.
    destruct (decide (s = sid)) as [->|Hne].
    + rewrite lookup_insert_eq, Hs. reflexivity.
    + now rewrite lookup_insert_ne.
  - now rewrite orb_false_r.
Qed.

Lemma has_response_on_h3_events sid evs c :
  has_response sid (fold_left on_h3_event evs c)
  = has_response sid c || existsb (is_headers_for sid) evs.
Proof.
  revert c. induction evs as [|ev evs IH]; intros c; simpl.
  - now rewrite orb_false_r.
  - now rewrite IH, has_response_on_h3_event, orb_assoc.
Qed.

Lemma has_response_ready_feed sid c events :
  has_response sid (feed_events c events)
  = has_response sid c || existsb (carries_headers_for sid) events.
Proof.
  transitivity (has_response sid (fold_left on_h3_event (h3_stream events) c)).
  { unfold has_response. now rewrite feed_events_responses. }
  rewrite has_response_on_h3_events. f_equal.
  unfold h3_stream, carries_headers_for.
  induction events as [|e events IH]; simpl; [reflexivity|].
  now rewrite existsb_app, IH.
Qed.

Lemma last_poll_nonneg timeout_ms : 0 <= last_poll timeout_ms.
Proof.
  unfold last_poll. destruct (Z.ltb_spec timeout_ms 0); [lia|].
  assert (0 <= timeout_ms / 10) by (apply Z.div_pos; lia). lia.
Qed.

Lemma last_poll_after timeout_ms : timeout_ms < last_poll timeout_ms \/ timeout_ms < 0.
Proof.
  unfold last_poll. destruct (Z.ltb_spec timeout_ms 0); [now right|left].
  pose proof (Z.mod_pos_bound timeout_ms 10 ltac:(lia)).
  pose proof (Z.div_mod timeout_ms 10 ltac:(lia)). lia.
Qed.

(** The polling loop entered at its own start instant, with the fuel the
    code is given in the model. *)
Lemma poll_from_start (ready : HTTP3Client -> bool) (trig : QuicEvent -> bool)
    (msg : str) (timeout_ms : Z) (cn : Connection) (w : World) :
  (forall c events, ready (feed_events c events) = ready c || existsb trig events) ->
  inbox_fresh cn (now w) ->
  if satisfied_by ready trig cn (now w - opened_at cn + last_poll timeout_ms)
  then exists cn' t,
      poll (poll_fuel timeout_ms) ready msg timeout_ms (now w) cn w
      = (Return cn', set_now w t)
      /\ ready (client cn') = true
      /\ now w <= t <= now w + last_poll timeout_ms
  else poll (poll_fuel timeout_ms) ready msg timeout_ms (now w) cn w
       = (Raise (TimeoutError msg), set_now w (now w + last_poll timeout_ms)).
Proof.
  intros Hfeed Hfresh.
  set (n := if timeout_ms <? 0 then 0%nat else Z.to_nat (timeout_ms / 10 + 1)).
  assert (Hn : 10 * Z.of_nat n = last_poll timeout_ms).
  { unfold n, last_poll. destruct (Z.ltb_spec timeout_ms 0); [reflexivity|].
    assert (0 <= timeout_ms / 10) by (apply Z.div_pos; lia). lia. }
  rewrite <- Hn.
  pose proof (Z.mod_pos_bound timeout_ms 10 ltac:(lia)) as Hmod.
  pose proof (Z.div_mod timeout_ms 10 ltac:(lia)) as Hdiv.
  apply (poll_outcome ready trig Hfeed msg timeout_ms (now w) n);
    [| | |exact Hfresh]; unfold n, poll_fuel;
    destruct (Z.ltb_spec timeout_ms 0) as [Hneg|Hpos];
    try (assert (0 <= timeout_ms / 10) by (apply Z.div_pos; lia)); lia.
Qed.

(** The connection [connect] hands over has seen exactly the events that
    arrived while the call was in progress. *)
Lemma connect_ok (w : World) :
  connect_raises (network w (dials w)) = None ->
  exists cn,
    connect w = (Return cn, dialled w)
    /\ opened_at cn = now w
    /\ script cn = network w (dials w)
    /\ inbox_fresh cn (now (dialled w))
    /\ forall ready trig x,
         (forall c events, ready (feed_events c events) = ready c || existsb trig events) ->
         ready HTTP3Client_init = false ->
         connect_ms (network w (dials w)) <= x ->
         satisfied_by ready trig cn x
         = existsb (fun e => due x e && trig (snd e)) (feed (network w (dials w))).
Proof.
  intros Hok. unfold connect. rewrite Hok. eexists. split; [reflexivity|].
  split; [reflexivity|]. split; [reflexivity|]. split; [apply deliver_fresh|].
  intros ready trig x Hfeed Hinit Hx.
  rewrite (deliver_satisfied_by ready trig Hfeed) by (simpl; lia).
  unfold satisfied_by. simpl. now rewrite Hinit.
Qed.

Lemma connect_fails (w : World) (e : exn) :
  connect_raises (network w (dials w)) = Some e ->
  connect w = (Raise e, dialled w).
Proof. intros Hko. unfold connect. now rewrite Hko. Qed.

End Waits.

(** ** The handshake check *)

Lemma aexit_run {A} (cn : Connection) (block : M A) (w w1 : World) (r : result A) :
  block w = (r, w1) ->
  aexit cn block w = (r, closed cn w1).
Proof. intros H. unfold aexit. now rewrite H. Qed.

Lemma async_with_connect_ok {A} (block : Connection -> M A) (w w1 : World)
    (cn : Connection) :
  connect w = (Return cn, w1) ->
  async_with_connect block w = aexit cn (block cn) w1.
Proof. intros H. unfold async_with_connect. now step H. Qed.

Lemma async_with_connect_fails {A} (block : Connection -> M A) (w w1 : World) (e : exn) :
  connect w = (Raise e, w1) ->
  async_with_connect block w = (Raise e, w1).
Proof. intros H. unfold async_with_connect. now step H. Qed.

Lemma handshake_body_outcome (v : QuicValidator) (start_time : Z) (w : World) :
  let tr := network w (dials w) in
  let span := last_poll (1000 * timeout v) in
  connect_raises tr = None ->
  if signalled_by tr (connect_ms tr + span)
  then exists t,
      handshake_body v start_time w
      = (Return {| test_name := "QUIC Handshake";
                   passed := true;
                   message := "Handshake completed successfully";
                   duration_ms := t - start_time;
                   details := Some ("Protocol: " ++ alpn_protocols_repr) |},
         set_now (dialled w) (t + close_ms tr))
      /\ now (dialled w) <= t <= now (dialled w) + span
  else handshake_body v start_time w
       = (Raise (TimeoutError "Handshake timeout"),
          set_now (dialled w) (now (dialled w) + span + close_ms tr)).
Proof.
  intros tr span Hok.
  destruct (connect_ok w Hok) as (cn & Hconnect & Hopened & Hscript & Hfresh & Hsat).
  fold tr in Hscript.
  specialize (Hsat is_handshake_complete completes_handshake (connect_ms tr + span)
                handshake_ready_feed eq_refl).
  pose proof (last_poll_nonneg (1000 * timeout v)) as Hspan. fold span in Hspan.
  specialize (Hsat ltac:(unfold tr; lia)).
  pose proof (poll_from_start is_handshake_complete completes_handshake
                "Handshake timeout" (1000 * timeout v) cn (dialled w)
                handshake_ready_feed Hfresh) as Hpoll.
  fold span in Hpoll. rewrite Hopened in Hpoll.
  replace (now (dialled w) - now w + span) with (connect_ms tr + span) in Hpoll
    by (unfold dialled, tr; simpl; lia).
  rewrite Hsat in Hpoll. fold tr in Hpoll. unfold signalled_by.
  unfold handshake_body. rewrite (async_with_connect_ok _ _ _ _ Hconnect).
  destruct (existsb _ (feed tr)).
  - destruct Hpoll as (cn' & t & Hrun & _ & Ht).
    exists t. split; [|exact Ht].
    erewrite aexit_run.
    2:{ unfold handshake_block. unfold bind at 1, time_time. cbv beta iota zeta.
        step Hrun. reflexivity. }
    unfold closed. rewrite Hscript. reflexivity.
  - erewrite aexit_run.
    2:{ unfold handshake_block. unfold bind at 1, time_time. cbv beta iota zeta.
        step Hpoll. reflexivity. }
    unfold closed. rewrite Hscript. reflexivity.
Qed.

Lemma signalled_by_mono (tr : Transport) (x y : Z) :
  x <= y -> signalled_by tr x = true -> signalled_by tr y = true.
Proof.
  intros Hxy. unfold signalled_by. rewrite !existsb_exists.
  intros (e & Hin & He). exists e. split; [exact Hin|].
  apply andb_true_iff in He as [Hdue Hc]. apply andb_true_iff. split; [|exact Hc].
  unfold due in *. apply Z.leb_le in Hdue. apply Z.leb_le. lia.
Qed.

Lemma prefix_refl (s : str) : String.prefix s s = true.
Proof.
  induction s as [|a s IH]; [reflexivity|].
  cbn [String.prefix]. destruct (ascii_dec a a); [exact IH|congruence].
Qed.

Lemma contains_app (pre sub : str) : contains sub (pre ++ sub) = true.
Proof.
  induction pre as [|a pre IH].
  - change (EmptyString ++ sub) with sub. destruct sub as [|b sub]; [reflexivity|].
    cbn [contains]. now rewrite prefix_refl.
  - change (String a pre ++ sub) with (String a (pre ++ sub)).
    cbn [contains]. rewrite IH. apply orb_true_r.
Qed.

(** ** Claims about the event handler *)

(** C9: the handshake-complete flag is monotonic.  Once
    [is_handshake_complete] has answered [true] after some events, it
    answers [true] after any further events. *)
Theorem handshake_flag_monotonic (c : HTTP3Client) (events later : list QuicEvent) :
  is_handshake_complete (feed_events c events) = true ->
  is_handshake_complete (feed_events c (events ++ later)) = true.
Proof.
  intros Hset. rewrite feed_events_app. now apply feed_events_flag_true.
Qed.

Lemma handshake_flag_monotonic_witness :
  is_handshake_complete
    (feed_events HTTP3Client_init [handshake_completed]) = true
  /\ is_handshake_complete
       (feed_events HTTP3Client_init
          ([handshake_completed]
           ++ [headers_event 0 ok_headers; data_event 0 "ab";
               {| class_name := "ConnectionTerminated"; h3_events := [OtherH3Event] |}]))
     = true.
Proof.
  split; [reflexivity|].
  apply (handshake_flag_monotonic HTTP3Client_init [handshake_completed]).
  reflexivity.
Defined.

(** C8: a data-received event for a stream with a PendingResponse
    appends its bytes to that response's body and touches nothing else;
    for a stream without one the event is dropped: the client, and so the
    whole stream map, is left as it was.  The handler is a total function,
    no error arises on either path. *)
Theorem data_received_appends_or_drops (c : HTTP3Client) (sid : Z) (d : bytes) :
  (forall r, _responses c !! sid = Some r ->
     _responses (on_h3_event c (DataReceived sid d))
     = <[sid := {| headers := headers r; data := data r ++ d |}]> (_responses c)
     /\ _responses (quic_event_received c (data_event sid d)) !! sid
        = Some {| headers := headers r; data := data r ++ d |}
     /\ forall other, other <> sid ->
          _responses (quic_event_received c (data_event sid d)) !! other
          = _responses c !! other)
  /\ (_responses c !! sid = None ->
      on_h3_event c (DataReceived sid d) = c
      /\ quic_event_received c (data_event sid d) = c).
Proof.
  split.
  - intros r Hr. unfold quic_event_received. simpl. rewrite Hr. simpl.
    split; [reflexivity|]. split.
    + apply lookup_insert_eq.
    + intros other Hne. now rewrite lookup_insert_ne.
  - intros Hnone. unfold quic_event_received. simpl. rewrite Hnone.
    split; reflexivity.
Qed.

Lemma data_received_appends_or_drops_witness :
  (_responses client_with_body !! 0 = Some {| headers := ok_headers; data := "ab" |}
   /\ _responses (quic_event_received client_with_body (data_event 0 "cd")) !! 0
      = Some {| headers := ok_headers; data := "abcd" |})
  /\ (_responses client_with_body !! 4 = None
      /\ quic_event_received client_with_body (data_event 4 "cd") = client_with_body).
Proof.
  split.
  - split; [reflexivity|].
    apply (proj1 (data_received_appends_or_drops client_with_body 0 "cd")
             {| headers := ok_headers; data := "ab" |}).
    reflexivity.
  - split; [reflexivity|].
    apply (proj2 (data_received_appends_or_drops client_with_body 4 "cd")).
    reflexivity.
Defined.

(** C2, as the invariant is worded, fails: a second header block on a
    known stream replaces its PendingResponse, and the body received so
    far is gone. *)
Lemma response_kept_counterexample :
  ~ response_kept client_with_body [headers_event 0 [("content-type", "text/plain")]] 0.
Proof.
  intros Hkept.
  destruct (Hkept {| headers := ok_headers; data := "ab" |} eq_refl)
    as (r' & Hlook & _ & fragment & Hdata).
  vm_compute in Hlook. injection Hlook as <-.
  discriminate Hdata.
Qed.

(** C2, amended: a stream that has a PendingResponse keeps having one;
    as long as no further header block arrives for it, the response keeps
    its headers and its body is extended by the data fragments of the
    stream, in arrival order; a further header block for the stream
    installs a fresh response with the new headers and an empty body. *)
Theorem known_stream_kept_until_new_headers
    (c : HTTP3Client) (events : list QuicEvent) (sid : Z) (r : PendingResponse) :
  _responses c !! sid = Some r ->
  is_Some (_responses (feed_events c events) !! sid)
  /\ (existsb (is_headers_for sid) (h3_stream events) = false ->
      _responses (feed_events c events) !! sid
      = Some {| headers := headers r;
                data := data r ++ body_of sid (h3_stream events) |})
  /\ (forall hs,
      _responses (quic_event_received c (headers_event sid hs)) !! sid
      = Some {| headers := hs; data := EmptyString |}).
Proof.
  intros Hr. rewrite feed_events_responses. split; [|split].
  - apply on_h3_events_known. rewrite Hr. eauto.
  - intros Hno. now apply on_h3_events_append.
  - intros hs. unfold quic_event_received. simpl. apply lookup_insert_eq.
Qed.

Lemma known_stream_kept_until_new_headers_witness :
  _responses client_with_body !! 0 = Some {| headers := ok_headers; data := "ab" |}
  /\ _responses
       (feed_events client_with_body
          [data_event 0 "cd"; data_event 4 "zz"; headers_event 8 []; data_event 0 "ef"])
       !! 0
     = Some {| headers := ok_headers; data := "abcdef" |}.
Proof.
  split; [reflexivity|].
  apply (proj1 (proj2 (known_stream_kept_until_new_headers client_with_body
           [data_event 0 "cd"; data_event 4 "zz"; headers_event 8 []; data_event 0 "ef"]
           0 {| headers := ok_headers; data := "ab" |} eq_refl))).
  reflexivity.
Defined.

(** ** Claims about the handshake check *)

(** C5, as it is worded, fails in the "only if" direction: completion
    signalled 5 ms after a 5 s timeout has elapsed is still seen at the
    next look of the polling loop, and the check passes. *)
Lemma handshake_passes_after_timeout :
  exists r w',
    test_quic_handshake default_validator (world_of late_handshake silent) = (Return r, w')
    /\ passed r = true
    /\ completes_strictly_before late_handshake (timeout default_validator) = false.
Proof.
  eexists _, _. split; [vm_compute; reflexivity|]. split; reflexivity.
Qed.

(** C5, amended: once the connection is established, the HandshakeOnly
    check passes if and only if completion is signalled no later than the
    last look of the 10 ms polling loop, the first one after the timeout
    has elapsed; in particular completion strictly before the timeout
    gives passed=true, and a check that does not pass reports
    "Handshake timeout". *)
Theorem handshake_check_passes_iff (v : QuicValidator) (w : World) :
  connect_raises (network w (dials w)) = None ->
  exists r w',
    test_quic_handshake v w = (Return r, w')
    /\ (passed r = true
        <-> signalled_by (network w (dials w))
              (connect_ms (network w (dials w)) + last_poll (1000 * timeout v)) = true)
    /\ (completes_strictly_before (network w (dials w)) (timeout v) = true ->
        passed r = true)
    /\ (passed r = false -> message r = "Handshake timeout").
Proof.
  intros Hok.
  pose proof (handshake_body_outcome v (now w) w Hok) as Hbody. cbv zeta in Hbody.
  assert (Hbefore :
    completes_strictly_before (network w (dials w)) (timeout v) = true ->
    signalled_by (network w (dials w))
      (connect_ms (network w (dials w)) + last_poll (1000 * timeout v)) = true).
  { unfold completes_strictly_before. apply signalled_by_mono.
    pose proof (last_poll_nonneg (1000 * timeout v)).
    destruct (last_poll_after (1000 * timeout v)); lia. }
  unfold test_quic_handshake, bind at 1, time_time. cbv beta iota zeta.
  unfold try_except.
  destruct (signalled_by _ _).
  - destruct Hbody as (t & Hrun & _). rewrite Hrun.
    eexists _, _. split; [reflexivity|]. simpl. intuition congruence.
  - rewrite Hbody. simpl.
    eexists _, _. split; [reflexivity|]. simpl. intuition congruence.
Qed.

Lemma handshake_check_passes_iff_witness :
  connect_raises (network (world_of prompt_handshake silent) 0) = None
  /\ exists r w',
       test_quic_handshake default_validator (world_of prompt_handshake silent)
       = (Return r, w')
       /\ passed r = true.
Proof.
  split; [reflexivity|].
  destruct (handshake_check_passes_iff default_validator
              (world_of prompt_handshake silent) eq_refl)
    as (r & w' & Hrun & _ & Hbefore & _).
  exists r, w'. split; [exact Hrun|]. apply Hbefore. reflexivity.
Defined.

(** ** Claims about exceptions *)

(** C6, as it is worded, fails for the handshake check's own timeout: the
    [TimeoutError] raised by the wait is turned into a result whose
    message does not name the exception's type and whose details are a
    fixed sentence, not the exception's text. *)
Lemma handshake_timeout_not_reported :
  exists e r w',
    handshake_body default_validator 0 (world_of silent silent) = (Raise e, w')
    /\ test_quic_handshake default_validator (world_of silent silent) = (Return r, w')
    /\ ~ reports_exception e r.
Proof.
  eexists _, _, _. split; [vm_compute; reflexivity|].
  split; [vm_compute; reflexivity|].
  intros (_ & Hname & _). vm_compute in Hname. discriminate Hname.
Qed.

(** C6, amended: every exception of class [Exception] raised while a
    check connects or runs is caught by the check, which returns a failed
    TestResult, so nothing reaches [run_all_tests].  In the request check,
    and for exceptions other than [TimeoutError] in the handshake check,
    the message ends with the exception's type name and the details are
    the exception's text; a [TimeoutError] in the handshake check gives
    the message "Handshake timeout" and a fixed details sentence. *)
Theorem checks_report_exceptions (v : QuicValidator) (w w' : World) (e : exn) :
  kind e <> KBaseException ->
  (connect_raises (network w (dials w)) = Some e ->
     handshake_body v (now w) w = (Raise e, dialled w)
     /\ http3_body v (now w) w = (Raise e, dialled w))
  /\ (handshake_body v (now w) w = (Raise e, w') ->
      exists r,
        test_quic_handshake v w = (Return r, w')
        /\ passed r = false
        /\ (kind e = KException -> reports_exception e r)
        /\ (kind e = KTimeoutError ->
            message r = "Handshake timeout"
            /\ details r
               = Some "Server did not complete handshake within timeout period"))
  /\ (http3_body v (now w) w = (Raise e, w') ->
      exists r,
        test_http3_request v w = (Return r, w')
        /\ reports_exception e r).
Proof.
  intros Hkind. split; [|split].
  - intros Hko. pose proof (connect_fails w e Hko) as Hc.
    unfold handshake_body, http3_body.
    split; apply async_with_connect_fails; exact Hc.
  - intros Hbody.
    unfold test_quic_handshake, bind at 1, time_time. cbv beta iota zeta.
    unfold try_except. rewrite Hbody. unfold handshake_handler.
    destruct (kind e) eqn:Hk; [congruence| |].
    + eexists. split; [reflexivity|]. split; [reflexivity|]. split; [|congruence].
      intros _. split; [reflexivity|]. split; [apply contains_app|reflexivity].
    + eexists. split; [reflexivity|]. split; [reflexivity|]. split; [congruence|].
      intros _. split; reflexivity.
  - intros Hbody.
    unfold test_http3_request, bind at 1, time_time. cbv beta iota zeta.
    unfold try_except. rewrite Hbody. unfold http3_handler.
    destruct (kind e) eqn:Hk; [congruence| |];
      (eexists; split; [reflexivity|]; split; [reflexivity|];
       split; [apply contains_app|reflexivity]).
Qed.

Lemma checks_report_exceptions_witness :
  kind connection_refused <> KBaseException
  /\ exists r,
       test_http3_request default_validator (world_of refusing refusing)
       = (Return r, dialled (world_of refusing refusing))
       /\ reports_exception connection_refused r.
Proof.
  split; [discriminate|].
  destruct (checks_report_exceptions default_validator
              (world_of refusing refusing) (dialled (world_of refusing refusing))
              connection_refused ltac:(discriminate))
    as (Hconnect & _ & Hrequest).
  apply Hrequest. apply (Hconnect eq_refl).
Defined.

(** ** The request check *)


(** The loop stops at the first [:status] entry. *)
Lemma find_status_first (pre post : list (bytes * bytes)) (value : bytes) (w : World) :
  forallb (fun h => negb (is_status h)) pre = true ->
  find_status (pre ++ (":status", value) :: post) w
  = find_status [(":status", value)] w.
Proof.
  induction pre as [|[name v] pre IH]; intros Hno; [reflexivity|].
  change (find_status ((name, v) :: (pre ++ (":status", value) :: post)%list) w
          = find_status [(":status", value)] w).
  cbn [forallb find_status] in *. unfold is_status in Hno at 1. cbn [fst] in Hno.
  apply andb_true_iff in Hno as [Hname Hrest].
  apply negb_true_iff in Hname. rewrite Hname. now apply IH.
Qed.

(** The check once the request phase has produced a response. *)
Lemma http3_body_after_response (v : QuicValidator) (start_time : Z)
    (w w1 w2 : World) (cn cn' : Connection) (resp : PendingResponse) :
  connect w = (Return cn, w1) ->
  send_request (host v ++ ":" ++ pretty (port v)) cn w1 = (Return (resp, cn'), w2) ->
  http3_body v start_time w
  = aexit cn
      (let! status := find_status (headers resp) in
       ret {| test_name := "HTTP/3 Request";
              passed := bool_decide (status <> None);
              message := http3_message status;
              duration_ms := now w2 - start_time;
              details := Some ("Response size: "
                               ++ pretty (N.of_nat (String.length (data resp)))
                               ++ " bytes") |}) w2.
Proof.
  intros Hconnect Hsend. unfold http3_body.
  rewrite (async_with_connect_ok _ _ _ _ Hconnect).
  unfold aexit, http3_block. step Hsend. reflexivity.
Qed.

Lemma test_http3_request_unfold (v : QuicValidator) (w : World) :
  test_http3_request v w
  = try_except (http3_body v (now w)) (http3_handler (now w)) w.
Proof. reflexivity. Qed.

Lemma test_quic_handshake_unfold (v : QuicValidator) (w : World) :
  test_quic_handshake v w
  = try_except (handshake_body v (now w)) (handshake_handler (now w)) w.
Proof. reflexivity. Qed.

(** ** Claims about the request check *)

(** C10: with several [:status] entries in the response headers, the
    status the request check reports is the value of the first one, in
    header order; whatever follows that entry has no effect on the
    result. *)
Theorem first_status_wins (v : QuicValidator) (w w1 w2 : World)
    (cn cn' : Connection) (resp : PendingResponse)
    (pre post : list (bytes * bytes)) (value : bytes) :
  connect w = (Return cn, w1) ->
  send_request (host v ++ ":" ++ pretty (port v)) cn w1 = (Return (resp, cn'), w2) ->
  headers resp = (pre ++ (":status", value) :: post)%list ->
  forallb (fun h => negb (is_status h)) pre = true ->
  find_status (headers resp) w2 = find_status [(":status", value)] w2
  /\ (utf8_valid value = true ->
      exists r,
        test_http3_request v w = (Return r, closed cn w2)
        /\ passed r = true
        /\ (value <> EmptyString ->
            message r = "Received HTTP response (status: " ++ value ++ ")"))
  /\ (utf8_valid value = false ->
      exists r,
        test_http3_request v w = (Return r, closed cn w2)
        /\ passed r = false
        /\ message r = "Request failed: UnicodeDecodeError").
Proof.
  intros Hconnect Hsend Hhs Hpre.
  pose proof (http3_body_after_response v (now w) w w1 w2 cn cn' resp Hconnect Hsend)
    as Hbody.
  rewrite Hhs in *. pose proof (find_status_first pre post value w2 Hpre) as Hfirst.
  split; [exact Hfirst|].
  remember (test_http3_request v w) as out eqn:Hout.
  rewrite test_http3_request_unfold in Hout. unfold try_except in Hout.
  rewrite Hbody in Hout. unfold aexit, bind at 1 in Hout. rewrite Hfirst in Hout.
  cbn [find_status] in Hout. rewrite String.eqb_refl in Hout.
  unfold bind, decode, ret in Hout.
  destruct (utf8_valid value); subst out;
    (split; intros Hvalid; [try discriminate Hvalid..]).
  - eexists. split; [reflexivity|]. split; [reflexivity|].
    intros Hne. cbn [message]. unfold http3_message, truthy.
    apply String.eqb_neq in Hne. rewrite Hne. reflexivity.
  - eexists. split; [reflexivity|]. split; reflexivity.
Qed.

Lemma first_status_wins_witness :
  exists r w2,
    test_http3_request default_validator
      (world_of (reply_at 20 [("server", "blitz"); (":status", "200"); (":status", "500")])
         silent)
    = (Return r, w2)
    /\ passed r = true
    /\ message r = "Received HTTP response (status: 200)".
Proof.
  set (w := world_of (reply_at 20 [("server", "blitz"); (":status", "200"); (":status", "500")])
              silent).
  destruct (connect w) as [[cn| |] w1] eqn:Hconnect; try discriminate Hconnect.
  destruct (send_request (host default_validator ++ ":" ++ pretty (port default_validator))
              cn w1) as [[[resp cn']| |] w2] eqn:Hsend.
  - assert (Hhs : headers resp
                  = ([("server", "blitz")] ++ (":status", "200") :: [(":status", "500")])%list).
    { vm_compute in Hconnect. injection Hconnect as <- <-.
      vm_compute in Hsend. injection Hsend as <- _ _. reflexivity. }
    destruct (first_status_wins default_validator w w1 w2 cn cn' resp
                [("server", "blitz")] [(":status", "500")] "200"
                Hconnect Hsend Hhs eq_refl)
      as (_ & Hvalid & _).
    destruct (Hvalid eq_refl) as (r & Hrun & Hpassed & Hmsg).
    exists r, (closed cn w2). split; [exact Hrun|]. split; [exact Hpassed|].
    apply Hmsg. discriminate.
  - vm_compute in Hconnect. injection Hconnect as <- <-.
    vm_compute in Hsend. discriminate Hsend.
  - vm_compute in Hconnect. injection Hconnect as <- <-.
    vm_compute in Hsend. discriminate Hsend.
Defined.

(** C1 does not hold of the code: the wait of the request check is
    bounded by the constant 5 s of [send_request], whatever timeout is
    configured.  The result of the check is the same for every configured
    timeout; with a timeout of 1 s a response that arrives after 3 s is
    accepted, and with a timeout of 10 s a response due after 7 s is
    given up on after 5 s. *)
Theorem request_wait_ignores_configured_timeout :
  (forall (v : QuicValidator) (t : Z) (w : World),
     test_http3_request (with_timeout v t) w = test_http3_request v w)
  /\ (exists w',
        test_http3_request (with_timeout default_validator 1)
          (world_of (reply_at 3000 ok_headers) silent)
        = (Return {| test_name := "HTTP/3 Request";
                     passed := true;
                     message := "Received HTTP response (status: 200)";
                     duration_ms := 3000;
                     details := Some "Response size: 0 bytes" |}, w'))
  /\ (exists w',
        test_http3_request (with_timeout default_validator 10)
          (world_of (reply_at 7000 ok_headers) silent)
        = (Return {| test_name := "HTTP/3 Request";
                     passed := false;
                     message := "Request failed: TimeoutError";
                     duration_ms := 5010;
                     details := Some "Request timeout" |}, w')).
Proof.
  split; [reflexivity|].
  split; eexists; vm_compute; reflexivity.
Qed.

(** ** Independence of a check from the instant it starts at *)

Section Shift.

Variable d : Z.

Lemma sim_bind {A B} (RA : A -> A -> Prop) (RB : B -> B -> Prop)
    (m m' : M A) (k k' : A -> M B) (w w' : World) :
  sim_out RA d (m w) (m' w') ->
  (forall a b w1 w1', RA a b -> sim d w1 w1' -> sim_out RB d (k a w1) (k' b w1')) ->
  sim_out RB d (bind m k w) (bind m' k' w').
Proof.
  intros Hm Hk. unfold bind.
  destruct (m w) as [[a|e|] w1], (m' w') as [[b|e'|] w1'];
    destruct Hm as [Hw Hr]; simpl in Hw, Hr; try contradiction.
  - now apply Hk.
  - split; assumption.
  - split; [assumption|exact I].
Qed.

Lemma sim_try_except {A} (RA : A -> A -> Prop)
    (body body' : M A) (h h' : exn -> option (M A)) (w w' : World) :
  sim_out RA d (body w) (body' w') ->
  (forall e, match h e, h' e with
             | Some f, Some f' =>
                 forall w1 w1', sim d w1 w1' -> sim_out RA d (f w1) (f' w1')
             | None, None => True
             | _, _ => False
             end) ->
  sim_out RA d (try_except body h w) (try_except body' h' w').
Proof.
  intros Hb Hh. unfold try_except.
  destruct (body w) as [[a|e|] w1], (body' w') as [[b|e'|] w1'];
    destruct Hb as [Hw Hr]; simpl in Hw, Hr; try contradiction.
  - split; assumption.
  - subst e'. specialize (Hh e). destruct (h e), (h' e); try contradiction.
    + now apply Hh.
    + split; [assumption|reflexivity].
  - split; [assumption|exact I].
Qed.

Lemma sim_time_time (w w' : World) :
  sim d w w' -> sim_out (fun a b => b = a + d) d (time_time w) (time_time w').
Proof. intros Hw. split; [exact Hw|apply Hw]. Qed.

Lemma sim_ret {A} (RA : A -> A -> Prop) (a b : A) (w w' : World) :
  RA a b -> sim d w w' -> sim_out RA d (ret a w) (ret b w').
Proof. intros Ha Hw. split; assumption. Qed.

Lemma sim_raise {A} (RA : A -> A -> Prop) (e : exn) (w w' : World) :
  sim d w w' -> sim_out RA d (raise e w) (raise e w').
Proof. intros Hw. split; [assumption|reflexivity]. Qed.

Lemma sim_deliver (t : Z) (cn cn' : Connection) :
  sim_conn d cn cn' -> sim_conn d (deliver t cn) (deliver (t + d) cn').
Proof.
  intros (Hc & Hi & Hs & Ho). unfold sim_conn, deliver. simpl.
  rewrite Hc, Hi, Hs, Ho.
  replace (t + d - (opened_at cn + d)) with (t - opened_at cn) by lia.
  repeat split; reflexivity.
Qed.

Lemma sim_connect (w w' : World) :
  sim d w w' ->
  network w' (dials w') = network w (dials w) ->
  sim_out (sim_conn d) d (connect w) (connect w').
Proof.
  intros [Hnow Htext] Hnet. unfold connect. rewrite Hnet.
  destruct (connect_raises (network w (dials w))).
  - split; [|reflexivity]. split; simpl; [lia|exact Htext].
  - split; [split; simpl; [lia|exact Htext]|].
    simpl. rewrite Hnow.
    replace (now w + d + connect_ms (network w (dials w)))
      with (now w + connect_ms (network w (dials w)) + d) by lia.
    apply sim_deliver. repeat split; reflexivity.
Qed.

Lemma sim_sleep_on (ms : Z) (cn cn' : Connection) (w w' : World) :
  sim_conn d cn cn' -> sim d w w' ->
  sim_out (sim_conn d) d (asyncio_sleep_on ms cn w) (asyncio_sleep_on ms cn' w').
Proof.
  intros Hc [Hnow Htext]. unfold asyncio_sleep_on.
  split; [split; simpl; [lia|exact Htext]|].
  simpl. rewrite Hnow. replace (now w + d + ms) with (now w + ms + d) by lia.
  now apply sim_deliver.
Qed.

Lemma sim_poll (ready : HTTP3Client -> bool) (msg : str) (timeout_ms start : Z)
    (fuel : nat) :
  forall (cn cn' : Connection) (w w' : World),
    sim_conn d cn cn' -> sim d w w' ->
    sim_out (sim_conn d) d
      (poll fuel ready msg timeout_ms start cn w)
      (poll fuel ready msg timeout_ms (start + d) cn' w').
Proof.
  induction fuel as [|fuel IH]; intros cn cn' w w' Hc Hw; simpl poll.
  - split; [exact Hw|exact I].
  - destruct Hc as (Hcl & Hrest). rewrite Hcl.
    destruct (ready (client cn)).
    + apply sim_ret; [split; assumption|exact Hw].
    + apply (sim_bind (fun a b => b = a + d)); [now apply sim_time_time|].
      intros a b w1 w1' -> Hw1.
      replace (a + d - (start + d)) with (a - start) by lia.
      destruct (timeout_ms <? a - start).
      * now apply sim_raise.
      * apply (sim_bind (sim_conn d)).
        -- apply sim_sleep_on; [split; assumption|exact Hw1].
        -- intros. now apply IH.
Qed.

End Shift.

Section ShiftedChecks.

Variable d : Z.

Lemma sim_send_request (url : str) (cn cn' : Connection) (w w' : World) :
  sim_conn d cn cn' -> sim d w w' ->
  sim_out (fun x y => fst y = fst x /\ sim_conn d (snd x) (snd y)) d
    (send_request url cn w) (send_request url cn' w').
Proof.
  intros (Hcl & Hin & Hsc & Hop) Hw. unfold send_request. rewrite Hsc.
  apply (sim_bind d (fun _ _ => True)).
  { destruct (send_headers_raises (script cn));
      [now apply sim_raise|now apply sim_ret]. }
  intros _ _ w1 w1' _ Hw1.
  apply (sim_bind d (fun a b => b = a + d)); [now apply sim_time_time|].
  intros a b w2 w2' -> Hw2.
  apply (sim_bind d (sim_conn d)).
  { apply sim_poll; [|exact Hw2]. unfold sim_conn. simpl.
    rewrite Hcl, Hin, Hop. repeat split; reflexivity. }
  intros c2 c2' w3 w3' Hc2 Hw3. destruct Hc2 as (Hcl2 & Hrest2). rewrite Hcl2.
  destruct (_responses (client c2) !! next_available_stream_id (script cn)).
  - apply sim_ret; [|exact Hw3]. split; [reflexivity|]. split; assumption.
  - now apply sim_raise.
Qed.

Lemma sim_find_status (hs : list (bytes * bytes)) (w w' : World) :
  sim d w w' -> sim_out eq d (find_status hs w) (find_status hs w').
Proof.
  intros Hw. induction hs as [|[name value] hs IH]; cbn [find_status].
  - now apply sim_ret.
  - destruct (String.eqb name ":status"); [|exact IH].
    apply (sim_bind d eq).
    + unfold decode. destruct Hw as [Hnow Htext]. rewrite Htext.
      destruct (utf8_valid value); (split; [split; assumption|reflexivity]).
    + intros a b w1 w1' -> Hw1. now apply sim_ret.
Qed.

Lemma sim_aexit {A} (RA : A -> A -> Prop) (cn cn' : Connection)
    (block block' : M A) (w w' : World) :
  close_ms (script cn') = close_ms (script cn) ->
  sim_out RA d (block w) (block' w') ->
  sim_out RA d (aexit cn block w) (aexit cn' block' w').
Proof.
  intros Hclose Hb. unfold aexit, closed. rewrite Hclose.
  destruct (block w) as [r w1], (block' w') as [r' w1'].
  destruct Hb as [[Hnow Htext] Hr]. cbn [fst snd] in *.
  split; [split; cbn [snd now set_now decode_error_text]; [lia|exact Htext]|exact Hr].
Qed.

Lemma sim_http3_body (v : QuicValidator) (start_time : Z) (w w' : World) :
  sim d w w' ->
  network w' (dials w') = network w (dials w) ->
  sim_out eq d (http3_body v start_time w) (http3_body v (start_time + d) w').
Proof.
  intros Hw Hnet. unfold http3_body, async_with_connect.
  apply (sim_bind d (sim_conn d)); [now apply sim_connect|].
  intros cn cn' w1 w1' Hcn Hw1.
  apply sim_aexit; [destruct Hcn as (_ & _ & Hs & _); now rewrite Hs|].
  unfold http3_block.
  apply (sim_bind d (fun x y => fst y = fst x /\ sim_conn d (snd x) (snd y)));
    [now apply sim_send_request|].
  intros rc rc' w2 w2' [Hresp _] Hw2. rewrite Hresp.
  apply (sim_bind d (fun a b => b = a + d)); [now apply sim_time_time|].
  intros a b w3 w3' -> Hw3.
  apply (sim_bind d eq); [now apply sim_find_status|].
  intros st st' w4 w4' -> Hw4.
  apply sim_ret; [|exact Hw4].
  replace (a + d - (start_time + d)) with (a - start_time) by lia. reflexivity.
Qed.

Lemma sim_test_http3_request (v : QuicValidator) (w w' : World) :
  sim d w w' ->
  network w' (dials w') = network w (dials w) ->
  sim_out eq d (test_http3_request v w) (test_http3_request v w').
Proof.
  intros Hw Hnet. rewrite !test_http3_request_unfold.
  destruct Hw as [Hnow Htext]. rewrite Hnow.
  apply sim_try_except; [apply sim_http3_body; [split; assumption|exact Hnet]|].
  intros e. unfold http3_handler.
  destruct (kind e); [exact I| |];
    (intros w1 w1' Hw1;
     apply (sim_bind d (fun a b => b = a + d)); [now apply sim_time_time|];
     intros a b w2 w2' -> Hw2; apply sim_ret; [|exact Hw2];
     replace (a + d - (now w + d)) with (a - now w) by lia; reflexivity).
Qed.

End ShiftedChecks.

(** The request check yields the same result from every world in which
    its connection meets the same transport: neither the clock, nor the
    number of earlier connections, nor their scripts matter. *)
Lemma test_http3_request_independent (v : QuicValidator) (w w' : World) :
  network w' (dials w') = network w (dials w) ->
  decode_error_text w' = decode_error_text w ->
  fst (test_http3_request v w') = fst (test_http3_request v w).
Proof.
  intros Hnet Htext.
  destruct (sim_test_http3_request (now w' - now w) v w w') as [_ Hr];
    [split; [lia|exact Htext]|exact Hnet|].
  destruct (fst (test_http3_request v w)), (fst (test_http3_request v w'));
    try contradiction; congruence.
Qed.

Lemma test_http3_request_validator (v v' : QuicValidator) (w : World) :
  host v' = host v -> port v' = port v ->
  test_http3_request v' w = test_http3_request v w.
Proof.
  intros Hh Hp. rewrite !test_http3_request_unfold.
  unfold http3_body, http3_block. now rewrite Hh, Hp.
Qed.

(** Whatever its outcome, the handshake check makes exactly one
    connection attempt and leaves the rest of the world alone. *)
Lemma test_quic_handshake_world (v : QuicValidator) (w : World) :
  exists t, snd (test_quic_handshake v w) = set_now (dialled w) t.
Proof.
  rewrite test_quic_handshake_unfold. unfold try_except.
  destruct (connect_raises (network w (dials w))) as [e|] eqn:Hc.
  - pose proof (connect_fails w e Hc) as Hfail.
    assert (Hbody : handshake_body v (now w) w = (Raise e, dialled w)).
    { unfold handshake_body. now apply async_with_connect_fails. }
    rewrite Hbody. exists (now (dialled w)). rewrite set_now_now.
    unfold handshake_handler. destruct (kind e); reflexivity.
  - pose proof (handshake_body_outcome v (now w) w Hc) as Hbody. cbv zeta in Hbody.
    destruct (signalled_by _ _).
    + destruct Hbody as (t & Hrun & _). rewrite Hrun. eexists. reflexivity.
    + rewrite Hbody. eexists. reflexivity.
Qed.

(** ** The orchestrator *)

(** [run_all_tests] spelled out: the handshake check, a 500 ms pause, the
    request check, a 500 ms pause; an exception that a check lets through
    ends the run. *)
Lemma run_all_tests_unfold (v : QuicValidator) (w : World) :
  run_all_tests v w
  = match test_quic_handshake v w with
    | (Return r1, w1) =>
        match test_http3_request (append_result v r1) (set_now w1 (now w1 + 500)) with
        | (Return r2, w2) =>
            (Return ((results v ++ [r1; r2])%list,
                     append_result (append_result v r1) r2),
             set_now w2 (now w2 + 500))
        | (Raise e, w2) => (Raise e, w2)
        | (OutOfFuel, w2) => (OutOfFuel, w2)
        end
    | (Raise e, w1) => (Raise e, w1)
    | (OutOfFuel, w1) => (OutOfFuel, w1)
    end.
Proof.
  unfold run_all_tests, tests, run_tests, bind, asyncio_sleep, ret.
  destruct (test_quic_handshake v w) as [[r1|e|] w1]; try reflexivity.
  fold (append_result v r1).
  destruct (test_http3_request (append_result v r1) (set_now w1 (now w1 + 500)))
    as [[r2|e|] w2]; try reflexivity.
  fold (append_result (append_result v r1) r2).
  cbn [results append_result]. now rewrite <- app_assoc.
Qed.

Lemma second_check_world (v : QuicValidator) (w : World) :
  let w1 := snd (test_quic_handshake v w) in
  network (set_now w1 (now w1 + 500)) (dials (set_now w1 (now w1 + 500)))
  = network w (S (dials w))
  /\ decode_error_text (set_now w1 (now w1 + 500)) = decode_error_text w.
Proof.
  destruct (test_quic_handshake_world v w) as [t Ht]. cbv zeta. rewrite Ht.
  split; reflexivity.
Qed.

(** C7: [run_all_tests] runs the handshake check and then the request
    check, appends their results in that order, one per check, pauses
    500 ms after each check, and runs the request check whatever the
    handshake check returned: in any other run in which the second
    connection meets the same transport, the second result is the same,
    whatever the first one is. *)
Theorem run_all_tests_sequence (v : QuicValidator) (w w1 w2 : World) (r1 r2 : TestResult) :
  test_quic_handshake v w = (Return r1, w1) ->
  test_http3_request v (set_now w1 (now w1 + 500)) = (Return r2, w2) ->
  run_all_tests v w
  = (Return ((results v ++ [r1; r2])%list, append_result (append_result v r1) r2),
     set_now w2 (now w2 + 500))
  /\ dials w1 = S (dials w)
  /\ (forall (wb wb' : World) (rsb : list TestResult) (vb : QuicValidator),
        network wb (S (dials wb)) = network w (S (dials w)) ->
        decode_error_text wb = decode_error_text w ->
        run_all_tests v wb = (Return (rsb, vb), wb') ->
        exists r1b, rsb = (results v ++ [r1b; r2])%list).
Proof.
  intros H1 H2.
  assert (H2' : test_http3_request (append_result v r1) (set_now w1 (now w1 + 500))
                = (Return r2, w2)).
  { rewrite <- H2. now apply test_http3_request_validator. }
  split; [|split].
  - rewrite run_all_tests_unfold, H1, H2'. reflexivity.
  - destruct (test_quic_handshake_world v w) as [t Ht]. rewrite H1 in Ht.
    simpl in Ht. now rewrite Ht.
  - intros wb wb' rsb vb Hnet Htext Hrun.
    rewrite run_all_tests_unfold in Hrun.
    pose proof (second_check_world v wb) as [Hnb Htb].
    pose proof (second_check_world v w) as [Hna Hta].
    rewrite H1 in Hna, Hta. cbn [snd] in Hna, Hta.
    destruct (test_quic_handshake v wb) as [[r1b|e|] w1b]; try discriminate Hrun.
    cbn [snd] in Hnb, Htb.
    pose proof (test_http3_request_independent v
                  (set_now w1 (now w1 + 500)) (set_now w1b (now w1b + 500))
                  ltac:(congruence) ltac:(congruence)) as Hsame.
    rewrite H2 in Hsame. cbn [fst] in Hsame.
    rewrite (test_http3_request_validator v (append_result v r1b)) in Hrun
      by reflexivity.
    destruct (test_http3_request v (set_now w1b (now w1b + 500))) as [[r2b|e|] w2b];
      try discriminate Hrun; try discriminate Hsame.
    cbn [fst] in Hsame. injection Hsame as ->. injection Hrun as <- _ _.
    now exists r1b.
Qed.

Lemma run_all_tests_sequence_witness :
  exists r1 r2 w',
    run_all_tests default_validator (world_of silent (reply_at 20 ok_headers))
    = (Return ([r1; r2], append_result (append_result default_validator r1) r2), w')
    /\ passed r1 = false
    /\ passed r2 = true.
Proof.
  set (w := world_of silent (reply_at 20 ok_headers)).
  destruct (test_quic_handshake default_validator w) as [[r1| |] w1] eqn:H1.
  - destruct (test_http3_request default_validator (set_now w1 (now w1 + 500)))
      as [[r2| |] w2] eqn:H2.
    + destruct (run_all_tests_sequence default_validator w w1 w2 r1 r2 H1 H2)
        as (Hrun & _).
      exists r1, r2, (set_now w2 (now w2 + 500)). split; [exact Hrun|].
      vm_compute in H1. injection H1 as <- <-.
      vm_compute in H2. injection H2 as <- _. split; reflexivity.
    + vm_compute in H1. injection H1 as <- <-. vm_compute in H2. discriminate H2.
    + vm_compute in H1. injection H1 as <- <-. vm_compute in H2. discriminate H2.
  - vm_compute in H1. discriminate H1.
  - vm_compute in H1. discriminate H1.
Defined.

(** ** Termination *)

Lemma finished_bind {A B} (m : M A) (k : A -> M B) (w : World) :
  finished (m w) ->
  (forall a w1, m w = (Return a, w1) -> finished (k a w1)) ->
  finished (bind m k w).
Proof.
  unfold finished, bind. intros Hm Hk.
  destruct (m w) as [[a|e|] w1]; simpl in *; [now apply Hk|discriminate|congruence].
Qed.

Lemma find_status_finished (hs : list (bytes * bytes)) (w : World) :
  finished (find_status hs w).
Proof.
  induction hs as [|[name value] hs IH]; cbn [find_status]; [discriminate|].
  destruct (String.eqb name ":status"); [|exact IH].
  unfold finished, bind, decode, ret. destruct (utf8_valid value); discriminate.
Qed.

Lemma send_request_finished (url : str) (cn : Connection) (w : World) :
  inbox_fresh cn (now w) -> finished (send_request url cn w).
Proof.
  intros Hfresh. unfold send_request.
  apply finished_bind.
  { destruct (send_headers_raises (script cn)); discriminate. }
  intros [] w1 Hsend.
  assert (w1 = w) as ->.
  { destruct (send_headers_raises (script cn)); [discriminate Hsend|].
    unfold ret in Hsend. congruence. }
  apply finished_bind; [discriminate|].
  intros start w2 Htime. unfold time_time in Htime. injection Htime as <- <-.
  set (cn1 := {| client := _; opened_at := opened_at cn; inbox := inbox cn;
                 script := script cn |}).
  pose proof (poll_from_start (has_response (next_available_stream_id (script cn)))
                (carries_headers_for (next_available_stream_id (script cn)))
                "Request timeout" 5000 cn1 w
                (has_response_ready_feed _) Hfresh) as Hpoll.
  destruct (satisfied_by _ _ cn1 _).
  - destruct Hpoll as (cn2 & t & Hrun & Hready & _).
    unfold finished. step Hrun.
    unfold has_response in Hready. apply bool_decide_eq_true in Hready as [r Hr].
    rewrite Hr. discriminate.
  - unfold finished. step Hpoll. discriminate.
Qed.

Lemma connect_fresh (w w1 : World) (cn : Connection) :
  connect w = (Return cn, w1) -> inbox_fresh cn (now w1).
Proof.
  unfold connect. destruct (connect_raises (network w (dials w))); intros H;
    [discriminate H|]. injection H as <- <-. apply deliver_fresh.
Qed.

Lemma http3_body_finished (v : QuicValidator) (start_time : Z) (w : World) :
  finished (http3_body v start_time w).
Proof.
  unfold http3_body, async_with_connect. apply finished_bind.
  { unfold finished, connect. destruct (connect_raises _); discriminate. }
  intros cn w1 Hconnect.
  assert (Hexit : forall (block : M TestResult) w0,
            finished (block w0) -> finished (aexit cn block w0)).
  { intros block w0. unfold finished, aexit. now destruct (block w0). }
  apply Hexit. unfold http3_block. apply finished_bind.
  { apply send_request_finished. eapply connect_fresh, Hconnect. }
  intros rc w2 _. apply finished_bind; [discriminate|].
  intros t w3 _. apply finished_bind; [apply find_status_finished|].
  intros. discriminate.
Qed.

Lemma handshake_body_finished (v : QuicValidator) (start_time : Z) (w : World) :
  finished (handshake_body v start_time w).
Proof.
  destruct (connect_raises (network w (dials w))) as [e|] eqn:Hc.
  - pose proof (connect_fails w e Hc) as Hfail.
    unfold finished, handshake_body.
    rewrite (async_with_connect_fails _ _ _ _ Hfail). discriminate.
  - pose proof (handshake_body_outcome v start_time w Hc) as Hbody. cbv zeta in Hbody.
    unfold finished. destruct (signalled_by _ _).
    + destruct Hbody as (t & Hrun & _). rewrite Hrun. discriminate.
    + rewrite Hbody. discriminate.
Qed.

(** Both checks end, and end in a TestResult unless an exception outside
    [Exception] interrupts them. *)
Lemma test_quic_handshake_settled (v : QuicValidator) (w : World) :
  settled (test_quic_handshake v w).
Proof.
  rewrite test_quic_handshake_unfold. unfold settled, try_except.
  pose proof (handshake_body_finished v (now w) w) as Hfin. unfold finished in Hfin.
  destruct (handshake_body v (now w) w) as [[r|e|] w1]; simpl in *;
    [exact I| |congruence].
  unfold handshake_handler. destruct (kind e) eqn:Hk; simpl; [exact Hk|exact I..].
Qed.

Lemma test_http3_request_settled (v : QuicValidator) (w : World) :
  settled (test_http3_request v w).
Proof.
  rewrite test_http3_request_unfold. unfold settled, try_except.
  pose proof (http3_body_finished v (now w) w) as Hfin. unfold finished in Hfin.
  destruct (http3_body v (now w) w) as [[r|e|] w1]; simpl in *;
    [exact I| |congruence].
  unfold http3_handler. destruct (kind e) eqn:Hk; simpl; [exact Hk|exact I..].
Qed.

Lemma run_all_tests_settled (v : QuicValidator) (w : World) :
  settled (run_all_tests v w).
Proof.
  rewrite run_all_tests_unfold.
  pose proof (test_quic_handshake_settled v w) as H1. unfold settled in *.
  destruct (test_quic_handshake v w) as [[r1|e|] w1]; simpl in *;
    [|exact H1|contradiction].
  pose proof (test_http3_request_settled (append_result v r1)
                (set_now w1 (now w1 + 500))) as H2. unfold settled in H2.
  destruct (test_http3_request _ _) as [[r2|e|] w2]; simpl in *;
    [exact I|exact H2|contradiction].
Qed.

(** ** The reporter and main *)

Lemma count_failed_zero (rs : list TestResult) :
  Nat.eqb (count_failed rs) 0 = forallb passed rs.
Proof.
  unfold count_failed. induction rs as [|r rs IH]; [reflexivity|].
  cbn [List.filter forallb]. destruct (passed r); [exact IH|reflexivity].
Qed.

Lemma run_all_tests_returns_results (v v' : QuicValidator) (w w' : World)
    (rs : list TestResult) :
  run_all_tests v w = (Return (rs, v'), w') -> rs = results v'.
Proof.
  unfold run_all_tests, bind, ret.
  destruct (run_tests tests v w) as [[v1|e|] w1]; intros H; try discriminate H.
  now injection H as <- <- _.
Qed.

(** C4: [main] exits with 0 exactly when every TestResult of the run has
    passed=true and with 1 otherwise, the verdict being the conjunction
    of the [passed] flags; when the protocol engine is unavailable it
    exits with 1 before any check runs (no connection is attempted, the
    world is untouched).  With the engine available [main] always ends;
    it ends without an exit code of its own only when an exception
    outside [Exception] interrupts a check. *)
Theorem exit_code_verdict (args : Args) (w : World) :
  main false args w = (Return 1, w)
  /\ settled (main true args w)
  /\ (forall (rs : list TestResult) (v' : QuicValidator) (w' : World),
        run_all_tests
          (QuicValidator_init (arg_host args) (arg_port args) (arg_timeout args)) w
        = (Return (rs, v'), w') ->
        exists code,
          main true args w = (Return code, w')
          /\ (code = 0 <-> forall r, In r rs -> passed r = true)
          /\ (code <> 0 -> code = 1)
          /\ code = (if forallb passed rs then 0 else 1)).
Proof.
  split; [reflexivity|]. split.
  { pose proof (run_all_tests_settled
                  (QuicValidator_init (arg_host args) (arg_port args) (arg_timeout args))
                  w) as Hrun.
    unfold settled, main, bind in *. cbn [negb].
    destruct (run_all_tests _ w) as [[rv|e|] w1]; simpl in *;
      [exact I|exact Hrun|contradiction]. }
  intros rs v' w' Hrun.
  pose proof (run_all_tests_returns_results _ _ _ _ _ Hrun) as Hrs.
  unfold main. cbn [negb]. step Hrun. cbn [snd].
  unfold print_summary, ret. rewrite <- Hrs, count_failed_zero.
  eexists. split; [reflexivity|].
  destruct (forallb passed rs) eqn:Hall.
  - split; [|split; [congruence|reflexivity]].
    split; [|reflexivity]. intros _. now apply forallb_forall.
  - split; [|split; [reflexivity|reflexivity]].
    split; [discriminate|]. intros Hforall.
    apply forallb_forall in Hforall. congruence.
Qed.

Lemma exit_code_verdict_witness :
  exists w',
    main true default_args (world_of prompt_handshake (reply_at 20 ok_headers))
    = (Return 0, w').
Proof.
  set (w := world_of prompt_handshake (reply_at 20 ok_headers)).
  destruct (run_all_tests
              (QuicValidator_init (arg_host default_args) (arg_port default_args)
                 (arg_timeout default_args)) w)
    as [[[rs v']| |] w'] eqn:Hrun.
  - destruct (proj2 (proj2 (exit_code_verdict default_args w)) rs v' w' Hrun)
      as (code & Hmain & _ & _ & Hcode).
    exists w'. rewrite Hmain, Hcode.
    vm_compute in Hrun. injection Hrun as <- _ _. reflexivity.
  - vm_compute in Hrun. discriminate Hrun.
  - vm_compute in Hrun. discriminate Hrun.
Defined.

(** * Further properties of the validator *)

(** ** Inversion of monadic steps *)

Lemma bind_inv_return {A B} (m : M A) (k : A -> M B) (w w' : World) (b : B) :
  bind m k w = (Return b, w') ->
  exists a w1, m w = (Return a, w1) /\ k a w1 = (Return b, w').
Proof.
  unfold bind. destruct (m w) as [[a|e|] w1]; intros H; try discriminate H.
  now exists a, w1.
Qed.

Lemma find_status_world (hs : list (bytes * bytes)) (w : World) :
  snd (find_status hs w) = w.
Proof.
  induction hs as [|[name value] hs IH]; cbn [find_status]; [reflexivity|].
  destruct (String.eqb name ":status"); [|exact IH].
  unfold bind, decode, ret. destruct (utf8_valid value); reflexivity.
Qed.

(** ** Events and the client's tables *)

Lemma feed_events_requests (events : list QuicEvent) (c : HTTP3Client) :
  _requests (feed_events c events) = _requests c.
Proof.
  revert c. induction events as [|e events IH]; intros c; simpl; [reflexivity|].
  fold (feed_events (quic_event_received c e) events). rewrite IH.
  unfold quic_event_received.
  assert (Hfold : forall evs c0, _requests (fold_left on_h3_event evs c0) = _requests c0).
  { intros evs. induction evs as [|ev evs IHevs]; intros c0; simpl; [reflexivity|].
    rewrite IHevs. apply on_h3_event_requests. }
  rewrite Hfold. destruct (String.eqb (class_name e) "HandshakeCompleted"); reflexivity.
Qed.

Lemma on_h3_events_other_stream (sid : Z) (evs : list H3Event) (c : HTTP3Client) :
  Forall (fun ev => stream_of ev <> Some sid) evs ->
  _responses (fold_left on_h3_event evs c) !! sid = _responses c !! sid.
Proof.
  intros Hevs. revert c. induction Hevs as [|ev evs Hev _ IH]; intros c; simpl;
    [reflexivity|].
  rewrite IH. destruct ev as [s hs|s d|]; simpl in *; [| |reflexivity].
  - apply lookup_insert_ne. congruence.
  - destruct (_responses c !! s); [|reflexivity]. simpl.
    apply lookup_insert_ne. congruence.
Qed.

(** X1: after any sequence of transport events, a stream has a
    PendingResponse exactly when it had one before or one of the events
    carried a header block for it; data events alone never create one. *)
Theorem response_exists_iff (c : HTTP3Client) (events : list QuicEvent) (sid : Z) :
  is_Some (_responses (feed_events c events) !! sid)
  <-> is_Some (_responses c !! sid)
      \/ exists e hs, In e events /\ In (HeadersReceived sid hs) (h3_events e).
Proof.
  pose proof (has_response_ready_feed sid c events) as Hfeed.
  unfold has_response in Hfeed.
  rewrite <- (bool_decide_eq_true (is_Some (_responses (feed_events c events) !! sid))).
  rewrite Hfeed, orb_true_iff, bool_decide_eq_true, existsb_exists.
  split; (intros [Hknown|Hev]; [now left|right]).
  - destruct Hev as (e & Hin & Hcarries). unfold carries_headers_for in Hcarries.
    apply existsb_exists in Hcarries as (ev & Hev & His).
    destruct ev as [s hs|s d|]; simpl in His; try discriminate His.
    apply Z.eqb_eq in His as ->. now exists e, hs.
  - destruct Hev as (e & hs & Hin & Hhs). exists e. split; [exact Hin|].
    unfold carries_headers_for. apply existsb_exists.
    exists (HeadersReceived sid hs). split; [exact Hhs|]. simpl. apply Z.eqb_refl.
Qed.

(** X2: events that belong to other streams (or to none) leave the
    PendingResponse of a stream exactly as it was, whether it exists or
    not. *)
Theorem other_streams_do_not_interfere
    (c : HTTP3Client) (events : list QuicEvent) (sid : Z) :
  Forall (fun ev => stream_of ev <> Some sid) (h3_stream events) ->
  _responses (feed_events c events) !! sid = _responses c !! sid.
Proof.
  intros Hother. rewrite feed_events_responses.
  now apply on_h3_events_other_stream.
Qed.

Lemma other_streams_do_not_interfere_witness :
  _responses
    (feed_events client_with_body
       [headers_event 4 [(":status", "404")]; data_event 4 "zz"; handshake_completed;
        {| class_name := "StreamDataReceived"; h3_events := [OtherH3Event] |}]) !! 0
  = Some {| headers := ok_headers; data := "ab" |}.
Proof.
  rewrite (other_streams_do_not_interfere client_with_body _ 0).
  - reflexivity.
  - repeat constructor; discriminate.
Defined.

(** X3: the handshake-complete flag is true after a sequence of transport
    events exactly when it was true before or one of the events is of
    class HandshakeCompleted; no other event, and no HTTP/3 event, sets
    it. *)
Theorem handshake_flag_iff_event (c : HTTP3Client) (events : list QuicEvent) :
  is_handshake_complete (feed_events c events) = true
  <-> is_handshake_complete c = true
      \/ exists e, In e events /\ class_name e = "HandshakeCompleted".
Proof.
  rewrite feed_events_flag, orb_true_iff, existsb_exists.
  split; (intros [Hset|(e & Hin & He)]; [now left|right; exists e; split; [exact Hin|]]).
  - now apply String.eqb_eq.
  - now apply String.eqb_eq.
Qed.

(** ** Timing of the request check *)



(** ** What a check changes in the world *)

Lemma lands_bind {A B} (f : World -> World) (m : M A) (k : A -> M B) :
  lands f m -> (forall a, lands (fun w => w) (k a)) -> lands f (bind m k).
Proof.
  intros Hm Hk w. unfold bind. destruct (Hm w) as [t Ht].
  destruct (m w) as [[a|e|] w1]; cbn [snd] in Ht; subst w1;
    [|now exists t..].
  destruct (Hk a (set_now (f w) t)) as [t' Ht']. exists t'. now rewrite Ht'.
Qed.

Lemma lands_here {A} (m : M A) :
  (forall w, snd (m w) = w) -> lands (fun w => w) m.
Proof. intros H w. exists (now w). now rewrite H, set_now_now. Qed.

Lemma lands_try_except {A} (f : World -> World) (body : M A)
    (handler : exn -> option (M A)) :
  lands f body ->
  (forall e h, handler e = Some h -> lands (fun w => w) h) ->
  lands f (try_except body handler).
Proof.
  intros Hb Hh w. unfold try_except. destruct (Hb w) as [t Ht].
  destruct (body w) as [[a|e|] w1]; cbn [snd] in Ht; subst w1;
    [now exists t| |now exists t].
  destruct (handler e) as [h|] eqn:He; [|now exists t].
  destruct (Hh e h He (set_now (f w) t)) as [t' Ht']. exists t'. now rewrite Ht'.
Qed.

Lemma lands_poll (ready : HTTP3Client -> bool) (msg : str) (timeout_ms start : Z)
    (fuel : nat) (cn : Connection) :
  lands (fun w => w) (poll fuel ready msg timeout_ms start cn).
Proof.
  revert cn. induction fuel as [|fuel IH]; intros cn; simpl poll.
  - now apply lands_here.
  - destruct (ready (client cn)); [now apply lands_here|].
    apply lands_bind; [now apply lands_here|]. intros t.
    destruct (timeout_ms <? t - start); [now apply lands_here|].
    apply lands_bind; [|intros cn'; apply IH].
    intros w. now exists (now w + 10).
Qed.

Lemma lands_send_request (url : str) (cn : Connection) :
  lands (fun w => w) (send_request url cn).
Proof.
  unfold send_request. apply lands_bind.
  { destruct (send_headers_raises (script cn)); now apply lands_here. }
  intros _. apply lands_bind; [now apply lands_here|]. intros start.
  apply lands_bind; [apply lands_poll|]. intros cn2.
  destruct (_responses (client cn2) !! _); now apply lands_here.
Qed.

Lemma lands_async_with_connect {A} (block : Connection -> M A) :
  (forall cn, lands (fun w => w) (block cn)) ->
  lands dialled (async_with_connect block).
Proof.
  intros Hb. unfold async_with_connect. apply lands_bind.
  - intros w. exists (now (dialled w)). rewrite set_now_now.
    unfold connect. now destruct (connect_raises _).
  - intros cn w. unfold aexit. destruct (Hb cn w) as [t Ht].
    destruct (block cn w) as [r w1]. cbn [snd] in *. subst w1.
    now exists (t + close_ms (script cn)).
Qed.

(** Whatever its outcome, the request check makes exactly one connection
    attempt and leaves the rest of the world alone. *)
Lemma test_http3_request_world (v : QuicValidator) (w : World) :
  exists t, snd (test_http3_request v w) = set_now (dialled w) t.
Proof.
  rewrite test_http3_request_unfold.
  apply (lands_try_except dialled).
  - unfold http3_body. apply lands_async_with_connect. intros cn.
    unfold http3_block. apply lands_bind; [apply lands_send_request|]. intros rc.
    apply lands_bind; [now apply lands_here|]. intros t.
    apply lands_bind; [apply lands_here, find_status_world|]. intros st.
    now apply lands_here.
  - intros e h. unfold http3_handler.
    destruct (kind e); intros He; [discriminate He| |]; injection He as <-;
      (apply lands_bind; [now apply lands_here|]; intros t; now apply lands_here).
Qed.






(** X8: an empty [:status] value is reported inconsistently: when the
    first [:status] entry of the response has the empty value, the
    request check returns passed=true together with the message
    "No status in response". *)
Theorem empty_status_passes_without_status (v : QuicValidator) (w w1 w2 : World)
    (cn cn' : Connection) (resp : PendingResponse) (pre post : list (bytes * bytes)) :
  connect w = (Return cn, w1) ->
  send_request (host v ++ ":" ++ pretty (port v)) cn w1 = (Return (resp, cn'), w2) ->
  headers resp = (pre ++ (":status", EmptyString) :: post)%list ->
  forallb (fun h => negb (is_status h)) pre = true ->
  exists r,
    test_http3_request v w = (Return r, closed cn w2)
    /\ passed r = true
    /\ message r = "No status in response".
Proof.
  intros Hconnect Hsend Hhs Hpre.
  pose proof (http3_body_after_response v (now w) w w1 w2 cn cn' resp Hconnect Hsend)
    as Hbody.
  rewrite Hhs in Hbody.
  rewrite test_http3_request_unfold. unfold try_except. rewrite Hbody.
  unfold aexit, bind at 1. rewrite (find_status_first pre post EmptyString w2 Hpre).
  eexists. split; [reflexivity|]. split; reflexivity.
Qed.

Lemma empty_status_passes_without_status_witness :
  exists r w2,
    test_http3_request default_validator
      (world_of (reply_at 20 [("server", "blitz"); (":status", EmptyString)]) silent)
    = (Return r, w2)
    /\ passed r = true
    /\ message r = "No status in response".
Proof.
  set (w := world_of (reply_at 20 [("server", "blitz"); (":status", EmptyString)]) silent).
  destruct (connect w) as [[cn| |] w1] eqn:Hconnect; try discriminate Hconnect.
  destruct (send_request (host default_validator ++ ":" ++ pretty (port default_validator))
              cn w1) as [[[resp cn']| |] w2] eqn:Hsend.
  - assert (Hhs : headers resp
                  = ([("server", "blitz")] ++ (":status", EmptyString) :: [])%list).
    { vm_compute in Hconnect. injection Hconnect as <- <-.
      vm_compute in Hsend. injection Hsend as <- _ _. reflexivity. }
    destruct (empty_status_passes_without_status default_validator w w1 w2 cn cn' resp
                [("server", "blitz")] [] Hconnect Hsend Hhs eq_refl)
      as (r & Hrun & Hp & Hm).
    exists r, (closed cn w2). auto.
  - vm_compute in Hconnect. injection Hconnect as <- <-.
    vm_compute in Hsend. discriminate Hsend.
  - vm_compute in Hconnect. injection Hconnect as <- <-.
    vm_compute in Hsend. discriminate Hsend.
Defined.

(** ** The run as a whole *)

(** X10: a run that completes makes exactly two connection attempts, one
    per check and whatever the checks' results, and leaves the rest of
    the world as it found it. *)
Theorem run_all_tests_two_connections (v v' : QuicValidator) (w w' : World)
    (rs : list TestResult) :
  run_all_tests v w = (Return (rs, v'), w') -> same_net 2 w w'.
Proof.
  rewrite run_all_tests_unfold.
  destruct (test_quic_handshake_world v w) as (t1 & Hw1).
  destruct (test_quic_handshake v w) as [[r1|e|] w1]; intros Hrun;
    try discriminate Hrun.
  cbn [snd] in Hw1. subst w1.
  destruct (test_http3_request_world (append_result v r1)
              (set_now (set_now (dialled w) t1) (now (set_now (dialled w) t1) + 500)))
    as (t2 & Hw2).
  destruct (test_http3_request (append_result v r1) _) as [[r2|e|] w2];
    try discriminate Hrun.
  cbn [snd] in Hw2. subst w2. injection Hrun as _ _ <-.
  repeat split; reflexivity.
Qed.

Lemma run_all_tests_two_connections_witness :
  same_net 2 (world_of refusing refusing)
    (snd (run_all_tests default_validator (world_of refusing refusing))).
Proof.
  destruct (run_all_tests default_validator (world_of refusing refusing))
    as [[[rs v']| |] w'] eqn:Hrun.
  - exact (run_all_tests_two_connections _ _ _ _ _ Hrun).
  - vm_compute in Hrun. discriminate Hrun.
  - vm_compute in Hrun. discriminate Hrun.
Defined.

(** X11: the two counts of the summary add up to the number of results;
    [print_summary] returns True exactly when every result is counted as
    passed, which includes the case of no results at all. *)
Theorem summary_counts (v : QuicValidator) :
  (count_passed (results v) + count_failed (results v) = length (results v))%nat
  /\ (print_summary v = true <-> count_passed (results v) = length (results v))
  /\ forall h p t, print_summary (QuicValidator_init h p t) = true.
Proof.
  assert (Hsum : forall rs, (count_passed rs + count_failed rs = length rs)%nat).
  { unfold count_passed, count_failed. induction rs as [|r rs IH]; [reflexivity|].
    cbn [List.filter]. destruct (passed r); cbn [negb length]; lia. }
  split; [apply Hsum|]. split; [|reflexivity].
  unfold print_summary. rewrite Nat.eqb_eq. specialize (Hsum (results v)). lia.
Qed.

(** ** send_request and the tables of the client *)

Lemma deliver_requests (t : Z) (cn : Connection) :
  _requests (client (deliver t cn)) = _requests (client cn).
Proof. unfold deliver. cbn [client]. apply feed_events_requests. Qed.

(** A wait that returns hands back the same connection, with the request
    table untouched: only delivered events have acted on the client. *)
Lemma poll_returns (ready : HTTP3Client -> bool) (msg : str) (timeout_ms start : Z)
    (fuel : nat) :
  forall (cn cn' : Connection) (w w' : World),
    poll fuel ready msg timeout_ms start cn w = (Return cn', w') ->
    _requests (client cn') = _requests (client cn)
    /\ script cn' = script cn
    /\ ready (client cn') = true.
Proof.
  induction fuel as [|fuel IH]; intros cn cn' w w'; simpl poll; [discriminate|].
  destruct (ready (client cn)) eqn:Hr.
  - unfold ret. intros H. injection H as <- _. auto.
  - unfold bind, time_time, asyncio_sleep_on.
    destruct (timeout_ms <? now w - start); [discriminate|].
    intros H. apply IH in H as (Hreq & Hscript & Hready).
    rewrite Hreq, Hscript, deliver_requests. auto.
Qed.

(** X12: when [send_request] returns, the response it returns is the one
    stored for the stream it allocated, and the URL has been recorded in
    the request table under that stream. *)
Theorem send_request_returns_stored (url : str) (cn cn' : Connection) (w w' : World)
    (resp : PendingResponse) :
  send_request url cn w = (Return (resp, cn'), w') ->
  _responses (client cn') !! next_available_stream_id (script cn) = Some resp
  /\ _requests (client cn') !! next_available_stream_id (script cn) = Some url.
Proof.
  unfold send_request. intros H.
  apply bind_inv_return in H as (u & w1 & _ & H).
  apply bind_inv_return in H as (start & w2 & _ & H).
  apply bind_inv_return in H as (cn2 & w3 & Hpoll & H).
  apply poll_returns in Hpoll as (Hreq & _ & _).
  destruct (_responses (client cn2) !! next_available_stream_id (script cn))
    as [r|] eqn:Hr; [|discriminate H].
  unfold ret in H. injection H as <- <- _.
  split; [exact Hr|]. rewrite Hreq. cbn [client set_requests _requests].
  apply lookup_insert_eq.
Qed.

Lemma send_request_returns_stored_witness :
  exists cn w1 resp cn' w2,
    connect (world_of (reply_at 20 ok_headers) silent) = (Return cn, w1)
    /\ send_request "127.0.0.1:8443" cn w1 = (Return (resp, cn'), w2)
    /\ _responses (client cn') !! 0 = Some resp
    /\ _requests (client cn') !! 0 = Some "127.0.0.1:8443".
Proof.
  destruct (connect (world_of (reply_at 20 ok_headers) silent))
    as [[cn| |] w1] eqn:Hconnect; try discriminate Hconnect.
  destruct (send_request "127.0.0.1:8443" cn w1) as [[[resp cn']| |] w2] eqn:Hsend.
  - exists cn, w1, resp, cn', w2. split; [reflexivity|]. split; [exact Hsend|].
    assert (Hsid : next_available_stream_id (script cn) = 0).
    { vm_compute in Hconnect. injection Hconnect as <- _. reflexivity. }
    rewrite <- Hsid. exact (send_request_returns_stored _ _ _ _ _ _ Hsend).
  - vm_compute in Hconnect. injection Hconnect as <- <-.
    vm_compute in Hsend. discriminate Hsend.
  - vm_compute in Hconnect. injection Hconnect as <- <-.
    vm_compute in Hsend. discriminate Hsend.
Defined.

(** X13: a handshake that is already complete when [connect] returns
    makes the check pass at once, without a single sleep and whatever the
    configured timeout (zero and negative values included); the duration
    is the time the connection attempt took. *)
Theorem handshake_complete_on_connect (v : QuicValidator) (w : World) :
  connect_raises (network w (dials w)) = None ->
  signalled_by (network w (dials w)) (connect_ms (network w (dials w))) = true ->
  test_quic_handshake v w
  = (Return {| test_name := "QUIC Handshake";
               passed := true;
               message := "Handshake completed successfully";
               duration_ms := connect_ms (network w (dials w));
               details := Some ("Protocol: " ++ alpn_protocols_repr) |},
     set_now (dialled w) (now (dialled w) + close_ms (network w (dials w)))).
Proof.
  intros Hok Hsig.
  destruct (connect_ok w Hok) as (cn & Hconnect & Hopened & Hscript & Hfresh & Hsat).
  specialize (Hsat is_handshake_complete completes_handshake
                (connect_ms (network w (dials w)))
                handshake_ready_feed eq_refl ltac:(lia)).
  pose proof (fresh_satisfied_by is_handshake_complete completes_handshake
                cn (now (dialled w)) Hfresh) as Hready.
  rewrite Hopened in Hready.
  replace (now (dialled w) - now w) with (connect_ms (network w (dials w))) in Hready
    by (unfold dialled; cbn [now]; lia).
  rewrite Hsat in Hready. unfold signalled_by in Hsig. rewrite Hsig in Hready.
  rewrite test_quic_handshake_unfold. unfold try_except, handshake_body.
  rewrite (async_with_connect_ok _ _ _ _ Hconnect).
  unfold aexit, closed, handshake_block. rewrite Hscript.
  unfold bind at 1, time_time. cbv beta iota zeta.
  unfold poll_fuel. rewrite Nat.add_comm. cbn [Nat.add poll].
  rewrite <- Hready. unfold bind, ret, time_time. do 3 f_equal.
  unfold dialled. cbn [now]. lia.
Qed.

Lemma handshake_complete_on_connect_witness :
  exists w',
    test_quic_handshake (with_timeout default_validator (-1))
      (world_of (plain_transport [(0, handshake_completed)]) silent)
    = (Return {| test_name := "QUIC Handshake";
                 passed := true;
                 message := "Handshake completed successfully";
                 duration_ms := 0;
                 details := Some "Protocol: ['h3']" |}, w').
Proof.
  eexists.
  rewrite (handshake_complete_on_connect (with_timeout default_validator (-1))
             (world_of (plain_transport [(0, handshake_completed)]) silent)
             eq_refl eq_refl).
  reflexivity.
Defined.

Lemma poll_raises (ready : HTTP3Client -> bool) (msg : str) (timeout_ms start : Z)
    (fuel : nat) :
  forall (cn : Connection) (w w' : World) (e : exn),
    poll fuel ready msg timeout_ms start cn w = (Raise e, w') ->
    e = TimeoutError msg.
Proof.
  induction fuel as [|fuel IH]; intros cn w w' e; simpl poll; [discriminate|].
  destruct (ready (client cn)); [discriminate|].
  unfold bind, time_time, asyncio_sleep_on, raise.
  destruct (timeout_ms <? now w - start).
  - intros H. now injection H as <- _.
  - apply IH.
Qed.

(** X14: [send_request] fails in two ways only: with the exception that
    sending the headers raised, or with TimeoutError("Request timeout");
    the lookup of the response after the wait never fails. *)
Theorem send_request_failures (url : str) (cn : Connection) (w w' : World) (e : exn) :
  send_request url cn w = (Raise e, w') ->
  send_headers_raises (script cn) = Some e \/ e = TimeoutError "Request timeout".
Proof.
  unfold send_request.
  destruct (send_headers_raises (script cn)) as [e0|].
  - unfold bind, raise. intros H. left. now injection H as <- _.
  - unfold bind at 1, ret. cbv beta iota zeta.
    unfold bind at 1, time_time. cbv beta iota zeta.
    unfold bind at 1.
    destruct (poll _ _ _ _ _ _ w) as [[cn2|e2|] w2] eqn:Hpoll.
    + apply poll_returns in Hpoll as (_ & _ & Hready).
      unfold has_response in Hready. apply bool_decide_eq_true in Hready as [r Hr].
      rewrite Hr. discriminate.
    + apply poll_raises in Hpoll. intros H. right. injection H as <- _. exact Hpoll.
    + discriminate.
Qed.

Lemma send_request_failures_witness :
  exists cn w1 w2,
    connect (world_of silent silent) = (Return cn, w1)
    /\ send_request "127.0.0.1:8443" cn w1
       = (Raise (TimeoutError "Request timeout"), w2).
Proof.
  destruct (connect (world_of silent silent)) as [[cn| |] w1] eqn:Hconnect;
    try discriminate Hconnect.
  destruct (send_request "127.0.0.1:8443" cn w1) as [[rc|e|] w2] eqn:Hsend.
  - vm_compute in Hconnect. injection Hconnect as <- <-.
    vm_compute in Hsend. discriminate Hsend.
  - exists cn, w1, w2. split; [reflexivity|].
    destruct (send_request_failures _ _ _ _ _ Hsend) as [Hraise| ->]; [|exact Hsend].
    vm_compute in Hconnect. injection Hconnect as <- _. discriminate Hraise.
  - vm_compute in Hconnect. injection Hconnect as <- <-.
    vm_compute in Hsend. discriminate Hsend.
Defined.

(** ** The request check and the handshake *)

Lemma on_h3_events_responses_eq (evs : list H3Event) (c c' : HTTP3Client) :
  _responses c' = _responses c ->
  _responses (fold_left on_h3_event evs c') = _responses (fold_left on_h3_event evs c).
Proof.
  revert c c'. induction evs as [|ev evs IH]; intros c c' Hcc; simpl; [exact Hcc|].
  apply IH. destruct ev as [sid hs|sid d|]; simpl; [now rewrite Hcc| |exact Hcc].
  rewrite Hcc. destruct (_responses c !! sid); [reflexivity|exact Hcc].
Qed.

Lemma same_h3_filter (p : Z -> bool) (l l' : list (Z * QuicEvent)) :
  Forall2 same_h3_event l l' ->
  Forall2 same_h3_event
    (List.filter (fun e => p (fst e)) l) (List.filter (fun e => p (fst e)) l').
Proof.
  induction 1 as [|e e' l l' He _ IH]; [constructor|].
  cbn [List.filter]. destruct He as [Ht Hev]. rewrite Ht.
  destruct (p (fst e)); [|exact IH].
  constructor; [split; assumption|exact IH].
Qed.

Lemma same_h3_stream (l l' : list (Z * QuicEvent)) :
  Forall2 same_h3_event l l' ->
  h3_stream (map snd l') = h3_stream (map snd l).
Proof.
  unfold h3_stream. induction 1 as [|e e' l l' [_ Hev] _ IH]; [reflexivity|].
  cbn [map flat_map]. now rewrite Hev, IH.
Qed.

Lemma same_h3_deliver (t : Z) (cn cn' : Connection) :
  same_h3_conn cn cn' -> same_h3_conn (deliver t cn) (deliver t cn').
Proof.
  intros (Hresp & Hreq & Hop & Hin & Hsid & Hsend & Hclose).
  unfold same_h3_conn, deliver. cbn [client opened_at inbox script].
  rewrite Hop. repeat split; try assumption.
  - rewrite !feed_events_responses.
    change (due (t - opened_at cn)) with (fun e : Z * QuicEvent => fst e <=? t - opened_at cn).
    rewrite (same_h3_stream _ _
               (same_h3_filter (fun x => x <=? t - opened_at cn) _ _ Hin)).
    now apply on_h3_events_responses_eq.
  - now rewrite !feed_events_requests.
  - exact (same_h3_filter (fun x => negb (x <=? t - opened_at cn)) _ _ Hin).
Qed.

Lemma same_h3_poll (sid : Z) (msg : str) (timeout_ms start : Z) (fuel : nat) :
  forall (cn cn' : Connection) (w w' : World),
    same_h3_conn cn cn' -> sim 0 w w' ->
    sim_out same_h3_conn 0
      (poll fuel (has_response sid) msg timeout_ms start cn w)
      (poll fuel (has_response sid) msg timeout_ms start cn' w').
Proof.
  induction fuel as [|fuel IH]; intros cn cn' w w' Hc Hw; simpl poll.
  - split; [exact Hw|exact I].
  - assert (Hready : has_response sid (client cn') = has_response sid (client cn)).
    { unfold has_response. destruct Hc as (Hresp & _). now rewrite Hresp. }
    rewrite Hready. destruct (has_response sid (client cn)).
    + now apply sim_ret.
    + apply (sim_bind 0 (fun a b => b = a + 0)); [now apply sim_time_time|].
      intros a b w1 w1' -> Hw1. rewrite Z.add_0_r.
      destruct (timeout_ms <? a - start); [now apply sim_raise|].
      apply (sim_bind 0 same_h3_conn).
      * destruct Hw1 as [Hnow Htext]. unfold asyncio_sleep_on.
        split; [split; cbn [snd now set_now]; [lia|exact Htext]|].
        cbn [fst now set_now]. rewrite Hnow, Z.add_0_r. now apply same_h3_deliver.
      * intros. now apply IH.
Qed.

Lemma same_h3_send_request (url : str) (cn cn' : Connection) (w w' : World) :
  same_h3_conn cn cn' -> sim 0 w w' ->
  sim_out (fun x y => fst y = fst x) 0
    (send_request url cn w) (send_request url cn' w').
Proof.
  intros Hc Hw. pose proof Hc as (Hresp & Hreq & Hop & Hin & Hsid & Hsend & Hclose).
  unfold send_request. rewrite Hsid, Hsend.
  apply (sim_bind 0 (fun _ _ => True)).
  { destruct (send_headers_raises (script cn));
      [now apply sim_raise|now apply sim_ret]. }
  intros _ _ w1 w1' _ Hw1.
  apply (sim_bind 0 (fun a b => b = a + 0)); [now apply sim_time_time|].
  intros a b w2 w2' -> Hw2. rewrite Z.add_0_r.
  apply (sim_bind 0 same_h3_conn).
  { apply same_h3_poll; [|exact Hw2]. unfold same_h3_conn.
    cbn [client opened_at inbox script set_requests _responses _requests].
    rewrite Hreq. repeat split; assumption. }
  intros c2 c2' w3 w3' Hc2 Hw3. destruct Hc2 as (Hresp2 & _). rewrite Hresp2.
  destruct (_responses (client c2) !! next_available_stream_id (script cn)).
  - now apply sim_ret.
  - now apply sim_raise.
Qed.

Lemma same_h3_connect (w w' : World) :
  sim 0 w w' ->
  same_h3_transport (network w (dials w)) (network w' (dials w')) ->
  sim_out same_h3_conn 0 (connect w) (connect w').
Proof.
  intros [Hnow Htext] (Hms & Hraises & Hfeed & Hsid & Hsend & Hclose). unfold connect.
  rewrite Hraises, Hms.
  destruct (connect_raises (network w (dials w))).
  - split; [|reflexivity]. split; cbn [snd now]; [lia|exact Htext].
  - split; [split; cbn [snd now]; [lia|exact Htext]|].
    cbn [fst now]. rewrite Hnow, Z.add_0_r.
    apply same_h3_deliver. unfold same_h3_conn.
    cbn [client opened_at inbox script].
    repeat split; assumption.
Qed.

(** X15: the request check does not look at the handshake: two servers
    whose events arrive at the same instants and yield the same HTTP/3
    events give the same request-check result, whether or not any of
    those events is a HandshakeCompleted. *)
Theorem request_check_ignores_handshake (v : QuicValidator) (w w' : World) :
  now w' = now w ->
  decode_error_text w' = decode_error_text w ->
  same_h3_transport (network w (dials w)) (network w' (dials w')) ->
  fst (test_http3_request v w') = fst (test_http3_request v w).
Proof.
  intros Hnow Htext Htr.
  assert (Hw : sim 0 w w') by (split; [lia|exact Htext]).
  assert (Hsim : sim_out eq 0 (test_http3_request v w) (test_http3_request v w')).
  { rewrite !test_http3_request_unfold. rewrite Hnow.
    apply sim_try_except.
    - unfold http3_body, async_with_connect.
      apply (sim_bind 0 same_h3_conn); [now apply same_h3_connect|].
      intros cn cn' w1 w1' Hcn Hw1.
      apply sim_aexit; [apply Hcn|]. unfold http3_block.
      apply (sim_bind 0 (fun x y => fst y = fst x)); [now apply same_h3_send_request|].
      intros rc rc' w2 w2' Hresp Hw2. rewrite Hresp.
      apply (sim_bind 0 (fun a b => b = a + 0)); [now apply sim_time_time|].
      intros a b w3 w3' -> Hw3. rewrite Z.add_0_r.
      apply (sim_bind 0 eq); [now apply sim_find_status|].
      intros st st' w4 w4' -> Hw4. now apply sim_ret.
    - intros e. unfold http3_handler.
      destruct (kind e); [exact I| |];
        (intros w1 w1' Hw1;
         apply (sim_bind 0 (fun a b => b = a + 0)); [now apply sim_time_time|];
         intros a b w2 w2' -> Hw2; rewrite Z.add_0_r; now apply sim_ret). }
  destruct Hsim as [_ Hr].
  destruct (fst (test_http3_request v w)), (fst (test_http3_request v w'));
    try contradiction; congruence.
Qed.

Lemma request_check_ignores_handshake_witness :
  fst (test_http3_request default_validator
         (world_of (plain_transport [(20, headers_event 0 ok_headers)]) silent))
  = fst (test_http3_request default_validator
           (world_of (plain_transport [(20, {| class_name := "HandshakeCompleted";
                                              h3_events := [HeadersReceived 0 ok_headers] |})])
              silent)).
Proof.
  apply request_check_ignores_handshake; [reflexivity|reflexivity|].
  repeat split; try reflexivity.
  constructor; [split; reflexivity|constructor].
Defined.

(** ** Which header block the request check reads *)








(** ** Claim about the status the request check reports *)



